(** * PictoPy backend: the [rename_image] endpoint

    A shallow embedding of [backend/app/routes/images.py], function
    [rename_image], together with the pieces of the Python runtime it calls
    ([str] methods, [posixpath], the [os] file primitives).

    - Python [str] values are sequences of Unicode code points: [list N].
    - Exceptions, the file system, the logger and the image catalogue are
      threaded through a small reader/state/error monad [M]; the world
      also records the external calls, so that "no lookup" and "no file
      call" can be stated.
    - The catalogue and the unexpected failures of the file primitives are
      the environment [Env] of an invocation.
    - The file system follows POSIX ([os.path] is [posixpath], [os.rename]
      replaces its destination); paths are taken as canonical names of
      files, so two different path strings name two different files. *)

From Stdlib Require Import ZArith NArith List String Ascii Lia Bool.
From Stdlib Require Import DecimalString.
From stdpp Require Import base option list gmap.

Local Open Scope Z_scope.

(** ** Python strings *)

Definition str := list N.

(** A string literal of the source, as code points (ASCII literals only). *)
Definition py (s : string) : str :=
  map N_of_ascii (list_ascii_of_string s).

Definition chr (a : ascii) : N := N_of_ascii a.

Definition str_eqb (a b : str) : bool := bool_decide (a = b).

Module PyStr.

(** [str.isspace] on one code point: CPython's [_PyUnicode_IsWhitespace],
    the characters that [str.strip()] without argument removes. *)
Definition isspace (c : N) : bool :=
  (((9 <=? c) && (c <=? 13)) || ((28 <=? c) && (c <=? 32))
   || (c =? 133) || (c =? 160) || (c =? 5760)
   || ((8192 <=? c) && (c <=? 8202))
   || (c =? 8232) || (c =? 8233) || (c =? 8239) || (c =? 8287)
   || (c =? 12288))%N.

(** Drop the longest prefix of characters satisfying [f]. *)
Fixpoint drop_while (f : N -> bool) (s : str) : str :=
  match s with
  | [] => []
  | c :: t => if f c then drop_while f t else s
  end.

(** [s.lstrip()], [s.rstrip()], [s.strip()] *)
Definition lstrip (s : str) : str := drop_while isspace s.
Definition rstrip (s : str) : str := rev (drop_while isspace (rev s)).
Definition strip (s : str) : str := rstrip (lstrip s).

(** [s.rstrip(chars)] for a one-character [chars] *)
Definition rstrip_char (c : N) (s : str) : str :=
  rev (drop_while (N.eqb c) (rev s)).

(** [s.startswith(c)], [s.endswith(c)] for a one-character [c] *)
Definition startswith (c : N) (s : str) : bool :=
  match s with
  | [] => false
  | x :: _ => N.eqb x c
  end.

Definition endswith (c : N) (s : str) : bool := startswith c (rev s).

(** [s.upper()].  On ASCII this is Python's mapping.  Python also maps
    code points outside ASCII; none of them is mapped to a string made of
    the letters and digits of the reserved device names, so leaving them
    unchanged gives the same answer to the only use of [upper] here, the
    membership test in [reserved_device_names]. *)
Definition upper_char (c : N) : N :=
  if ((97 <=? c) && (c <=? 122))%N then (c - 32)%N else c.

Definition upper (s : str) : str := map upper_char s.

(** [s.rfind(c)]: the index of the last occurrence of [c], or [-1]. *)
Fixpoint rfind_from (c : N) (s : str) (i last : Z) : Z :=
  match s with
  | [] => last
  | x :: t => rfind_from c t (i + 1) (if N.eqb x c then i else last)
  end.

Definition rfind (c : N) (s : str) : Z := rfind_from c s 0 (-1).

(** Slices [s[:i]], [s[i:]] and [s[i:j]] for indices that are not
    negative, the only ones the code below produces. *)
Definition slice_to (s : str) (i : Z) : str := take (Z.to_nat i) s.
Definition slice_from (s : str) (i : Z) : str := drop (Z.to_nat i) s.
Definition slice (s : str) (i j : Z) : str :=
  take (Z.to_nat (j - i)) (drop (Z.to_nat i) s).

(** [s.split(sep, 1)] for a one-character [sep]: at most two pieces. *)
Fixpoint split1 (sep : N) (s : str) : list str :=
  match s with
  | [] => [[]]
  | x :: t =>
      if N.eqb x sep then [[]; t]
      else match split1 sep t with
           | h :: r => (x :: h) :: r
           | [] => [[x]]
           end
  end.

(** [c * n] for a one-character string [c] *)
Definition repeat_char (c : N) (n : nat) : str := replicate n c.

End PyStr.

(** ** [posixpath] *)

Module posixpath.
Import PyStr.

Definition sep : N := chr "/".
Definition extsep : N := chr ".".

(** [posixpath.dirname] *)
Definition dirname (p : str) : str :=
  let i := rfind sep p + 1 in
  let head := slice_to p i in
  if negb (str_eqb head []) && negb (str_eqb head (repeat_char sep (length head)))
  then rstrip_char sep head
  else head.

(** The [while] loop of [genericpath._splitext]: [n] is the number of
    iterations left, [dotIndex - filenameIndex]. *)
Fixpoint splitext_loop (p : str) (filenameIndex dotIndex : Z) (n : nat)
  : option (str * str) :=
  match n with
  | O => None
  | S n' =>
      if negb (str_eqb (slice p filenameIndex (filenameIndex + 1)) [extsep])
      then Some (slice_to p dotIndex, slice_from p dotIndex)
      else splitext_loop p (filenameIndex + 1) dotIndex n'
  end.

(** [posixpath.splitext], that is [genericpath._splitext(p, '/', None, '.')] *)
Definition splitext (p : str) : str * str :=
  let sepIndex := rfind sep p in
  let dotIndex := rfind extsep p in
  let fallthrough := (p, slice_to p 0) in
  if dotIndex >? sepIndex then
    let filenameIndex := sepIndex + 1 in
    match splitext_loop p filenameIndex dotIndex
            (Z.to_nat (dotIndex - filenameIndex)) with
    | Some r => r
    | None => fallthrough
    end
  else fallthrough.

(** [posixpath.join(a, b)] *)
Definition join (a b : str) : str :=
  let path := a in
  if startswith sep b then b
  else if str_eqb path [] || endswith sep path then path ++ b
  else path ++ sep :: b.

End posixpath.

(** ** Schemas and exceptions *)

(** Modelled from the spec: the request and response schemas of
    [app/schemas/images.py], with the fields that [rename_image] reads and
    builds ([{image_id, rename}], [{success, message}] and
    [{success, error, message}]). *)
Record RenameImageRequest := {
  image_id : str;
  rename : str
}.

Record RenameImageResponse := {
  success : bool;
  message : str
}.

Record ErrorResponse := {
  err_success : bool;
  error : str;
  err_message : str
}.

Module status.
Definition HTTP_400_BAD_REQUEST : N := 400.
Definition HTTP_404_NOT_FOUND : N := 404.
Definition HTTP_500_INTERNAL_SERVER_ERROR : N := 500.
End status.

(** The exceptions that reach [rename_image]: FastAPI's [HTTPException], and
    [OSError] with its subclass [FileExistsError]; the latter two carry
    their rendering [str(e)]. *)
Inductive exn :=
| HTTPException (status_code : N) (detail : ErrorResponse)
| FileExistsError (text : str)
| OSError (text : str).

Inductive outcome (A : Type) :=
| Return (a : A)
| Raise (e : exn).
Arguments Return {A} a.
Arguments Raise {A} e.

(** ** The world around the endpoint *)

Definition bytes := list Byte.byte.

Inductive fd := Fd (path : str).

(** Calls that leave the process: the catalogue lookup and the four file
    primitives. *)
Inductive call :=
| DbGetImagePathById (id : str)
| OsOpen (path : str)
| OsClose (f : fd)
| OsRename (src dst : str)
| OsUnlink (path : str).

Record World := {
  fs : gmap str bytes;      (* regular files, by path *)
  log : list str;           (* lines written by [logger.error] *)
  calls : list call         (* the external calls made, oldest first *)
}.

(** What the endpoint cannot control: the catalogue
    ([app.database.images.db_get_image_path_by_id], which answers with a
    path or [None]) and the unexpected failures of file primitives (a full
    disk, a permission, an I/O error), given with the text of the error. *)
Record Env := {
  db : str -> option str;
  fault : call -> option str
}.

(** The frame of one invocation: the world and the local variable that the
    exception handler reads.  The variable is unbound until line 246
    assigns it; the frame starts with [false], which nothing reads before
    that assignment. *)
Record Frame := {
  world : World;
  placeholder_created : bool
}.

Definition M (A : Type) : Type := Env -> Frame -> outcome A * Frame.

#[global] Instance M_ret : MRet M := fun A a _ f => (Return a, f).

#[global] Instance M_bind : MBind M := fun A B k m env f =>
  match m env f with
  | (Return a, f') => k a env f'
  | (Raise e, f') => (Raise e, f')
  end.

Definition raise {A} (e : exn) : M A := fun _ f => (Raise e, f).

(** [try: body except Exception as e: handler e]; a handler re-raises the
    exceptions that none of its clauses names. *)
Definition try_except {A} (body : M A) (handler : exn -> M A) : M A :=
  fun env f =>
    match body env f with
    | (Return a, f') => (Return a, f')
    | (Raise e, f') => handler e env f'
    end.

(** [if c: body] *)
Definition when (c : bool) (body : M unit) : M unit :=
  if c then body else mret tt.

Definition ask : M Env := fun env f => (Return env, f).
Definition get_world : M World := fun _ f => (Return (world f), f).
Definition modify_world (g : World -> World) : M unit :=
  fun _ f => (Return tt, {| world := g (world f);
                            placeholder_created := placeholder_created f |}).
Definition get_placeholder_created : M bool :=
  fun _ f => (Return (placeholder_created f), f).
Definition set_placeholder_created (b : bool) : M unit :=
  fun _ f => (Return tt, {| world := world f; placeholder_created := b |}).

(** The three ways the world changes. *)
Definition called (c : call) (w : World) : World :=
  {| fs := fs w; log := log w; calls := calls w ++ [c] |}.
Definition with_fs (m : gmap str bytes) (w : World) : World :=
  {| fs := m; log := log w; calls := calls w |}.
Definition logged (msg : str) (w : World) : World :=
  {| fs := fs w; log := log w ++ [msg]; calls := calls w |}.

Definition record_call (c : call) : M unit := modify_world (called c).
Definition set_fs (m : gmap str bytes) : M unit := modify_world (with_fs m).

(** [logger.error(msg)] *)
Definition logger_error (msg : str) : M unit := modify_world (logged msg).

(** [db_get_image_path_by_id(image_id)] *)
Definition db_get_image_path_by_id (id : str) : M (option str) :=
  record_call (DbGetImagePathById id);;
  env ← ask;
  mret (db env id).

(** ** The [os] file primitives

    A primitive first meets the state of the files (the path is taken, the
    source is missing), then the unexpected failures of [fault], and then
    does its work. *)
Module os.

(** [str(e)] of the errors raised on the state of the files; Python
    renders the file names with [repr], which for a plain path is the
    path between single quotes. *)
Definition EEXIST_text (path : str) : str :=
  py "[Errno 17] File exists: '" ++ path ++ py "'".
Definition ENOENT_text (path : str) : str :=
  py "[Errno 2] No such file or directory: '" ++ path ++ py "'".
Definition ENOENT_text2 (src dst : str) : str :=
  py "[Errno 2] No such file or directory: '" ++ src ++ py "' -> '" ++ dst ++ py "'".

Definition unexpected (c : call) : M unit :=
  env ← ask;
  match fault env c with
  | Some text => raise (OSError text)
  | None => mret tt
  end.

(** [os.open(path, os.O_CREAT | os.O_EXCL | os.O_WRONLY)] *)
Definition open_excl (path : str) : M fd :=
  record_call (OsOpen path);;
  w ← get_world;
  match fs w !! path with
  | Some _ => raise (FileExistsError (EEXIST_text path))
  | None =>
      unexpected (OsOpen path);;
      set_fs (<[path := []]> (fs w));;
      mret (Fd path)
  end.

(** [os.close(fd)] *)
Definition close (f : fd) : M unit :=
  record_call (OsClose f);;
  unexpected (OsClose f).

(** [os.rename(src, dst)]: [dst] is replaced when it is there *)
Definition rename (src dst : str) : M unit :=
  record_call (OsRename src dst);;
  w ← get_world;
  match fs w !! src with
  | None => raise (OSError (ENOENT_text2 src dst))
  | Some content =>
      unexpected (OsRename src dst);;
      set_fs (<[dst := content]> (delete src (fs w)))
  end.

(** [os.unlink(path)] *)
Definition unlink (path : str) : M unit :=
  record_call (OsUnlink path);;
  w ← get_world;
  match fs w !! path with
  | None => raise (OSError (ENOENT_text path))
  | Some _ =>
      unexpected (OsUnlink path);;
      set_fs (delete path (fs w))
  end.

End os.

(** ** [rename_image] ([backend/app/routes/images.py]) *)

Import PyStr.

(** [x in xs] *)
Definition char_in (ch : N) (xs : list N) : bool := bool_decide (ch ∈ xs).
Definition str_in (x : str) (xs : list str) : bool := bool_decide (x ∈ xs).

(** [not s] for a string, [not o] for an optional string *)
Definition is_empty (s : str) : bool := str_eqb s [].
Definition falsy (o : option str) : bool :=
  match o with
  | None => true
  | Some s => is_empty s
  end.

(** The argument of [set(...)] on line 172: the characters before the
    double quote, the double quote (code point 34) and the characters after
    it, among them two backslashes. *)
Definition invalid_chars : list N :=
  py "<>:" ++ [34%N] ++ py "/\\|?*!^".

(** [f"{i}"] for [i] in [range(1, 10)] *)
Definition digit_str (i : N) : str := [(48 + i)%N].
Definition range_1_10 : list N := [1; 2; 3; 4; 5; 6; 7; 8; 9]%N.

Definition reserved_device_names : list str :=
  [py "CON"; py "PRN"; py "NUL"; py "AUX"]
  ++ map (fun i => py "COM" ++ digit_str i) range_1_10
  ++ map (fun i => py "LPT" ++ digit_str i) range_1_10.

(** [new_name.split(".", 1)[0]] *)
Definition base_stem (new_name : str) : str :=
  match split1 (chr ".") new_name with
  | h :: _ => h
  | [] => []
  end.

Definition validation_error (msg : str) : exn :=
  HTTPException status.HTTP_400_BAD_REQUEST
    {| err_success := false; error := py "Validation Error"; err_message := msg |}.

Module Msg.
Definition empty_id : str := py "Image ID cannot be empty".
Definition empty_name : str := py "New image name cannot be empty".
Definition invalid_characters : str := py "New image name contains invalid characters.".
Definition only_dots : str :=
  py "New image name cannot be '.' , '..' or consist only of dots.".
Definition trailing : str := py "New image name cannot end with a dot or space.".
(** the two dashes of the source are U+2013 *)
Definition reserved : str :=
  py "New image name cannot use a reserved Windows device name "
  ++ py "(CON, PRN, NUL, AUX, COM1" ++ [8211%N] ++ py "COM9, LPT1" ++ [8211%N]
  ++ py "LPT9).".
Definition cleanup_failed (new_file_path text : str) : str :=
  py "Failed to clean up placeholder file '" ++ new_file_path ++ py "': " ++ text.
Definition error_renaming (text : str) : str :=
  py "Error renaming image: " ++ text.
Definition renamed (new_name extension : str) : str :=
  py "Successfully renamed image to '" ++ new_name ++ extension ++ py "'".
End Msg.

Definition not_found (image_id : str) : exn :=
  HTTPException status.HTTP_404_NOT_FOUND
    {| err_success := false; error := py "Image Not Found";
       err_message := py "Image with ID '" ++ image_id ++ py "' does not exist." |}.

Definition file_exists : exn :=
  HTTPException status.HTTP_400_BAD_REQUEST
    {| err_success := false; error := py "File Exists";
       err_message := py "A file with the new name already exists." |}.

Definition internal_error (text : str) : exn :=
  HTTPException status.HTTP_500_INTERNAL_SERVER_ERROR
    {| err_success := false; error := py "Internal server error";
       err_message := py "Unable to rename image: " ++ text |}.

(** [str(e)] of an [OSError] *)
Definition os_error_text (e : exn) : str :=
  match e with
  | FileExistsError text | OSError text => text
  | HTTPException _ _ => []
  end.

(** Lines 240 to 242: where the file goes. *)
Definition extension_of (image_path : str) : str :=
  (posixpath.splitext image_path).2.

Definition new_file_path (image_path new_name : str) : str :=
  let folder_path := posixpath.dirname image_path in
  let extension := extension_of image_path in
  posixpath.join folder_path (new_name ++ extension).

(** Lines 150 to 227: the checks on the request, in the order of the
    source. *)
Definition check_request (image_id raw_name new_name : str) : M unit :=
  when (is_empty image_id) (raise (validation_error Msg.empty_id));;
  when (is_empty new_name) (raise (validation_error Msg.empty_name));;
  when (existsb (fun ch => char_in ch invalid_chars) new_name)
    (raise (validation_error Msg.invalid_characters));;
  when (forallb (fun ch => N.eqb ch (chr ".")) new_name)
    (raise (validation_error Msg.only_dots));;
  when (negb (is_empty raw_name)
        && (endswith (chr ".") raw_name || endswith (chr " ") raw_name))
    (raise (validation_error Msg.trailing));;
  let base_stem := base_stem new_name in
  when (negb (is_empty base_stem)
        && str_in (upper base_stem) reserved_device_names)
    (raise (validation_error Msg.reserved)).

(** Lines 246 to 285: reserve the target, rename, answer. *)
Definition reserve_and_rename (image_path new_name : str) : M RenameImageResponse :=
  let extension := extension_of image_path in
  let new_file_path := new_file_path image_path new_name in
  set_placeholder_created false;;
  try_except
    (try_except
       (f ← os.open_excl new_file_path;
        os.close f;;
        set_placeholder_created true)
       (fun e => match e with
                 | FileExistsError _ => raise file_exists
                 | _ => raise e
                 end);;
     os.rename image_path new_file_path)
    (fun e => match e with
              | HTTPException _ _ => raise e
              | _ =>
                  created ← get_placeholder_created;
                  when created
                    (try_except (os.unlink new_file_path)
                       (fun cleanup_err =>
                          match cleanup_err with
                          | HTTPException _ _ => raise cleanup_err
                          | _ =>
                              logger_error
                                (Msg.cleanup_failed new_file_path
                                   (os_error_text cleanup_err))
                          end));;
                  raise e
              end);;
  mret {| success := true; message := Msg.renamed new_name extension |}.

(** The body of [rename_image], in the frame of one invocation. *)
Definition rename_image_body (request : RenameImageRequest) : M RenameImageResponse :=
  try_except
    (let image_id := strip (image_id request) in
     let raw_name := rename request in
     let new_name := strip raw_name in
     check_request image_id raw_name new_name;;
     image_path ← db_get_image_path_by_id image_id;
     when (falsy image_path) (raise (not_found image_id));;
     reserve_and_rename (default [] image_path) new_name)
    (fun e => match e with
              | HTTPException _ _ => raise e
              | _ =>
                  logger_error (Msg.error_renaming (os_error_text e));;
                  raise (internal_error (os_error_text e))
              end).

(** [rename_image(request)] as its caller sees it: the outcome and the
    world it leaves. *)
Definition rename_image (request : RenameImageRequest) (env : Env) (w : World)
  : outcome RenameImageResponse * World :=
  let '(r, f) := rename_image_body request env
                   {| world := w; placeholder_created := false |} in
  (r, world f).

(** ** The specification's reading of the checks

    The six rules as the specification lists them, each with its own
    wording of the condition; [first_violation] is the rule that wins. *)
Module Spec.

Inductive rule :=
| EmptyId
| EmptyName
| InvalidCharacter
| OnlyDots
| TrailingDotOrSpace
| ReservedDeviceName.

Definition order : list rule :=
  [EmptyId; EmptyName; InvalidCharacter; OnlyDots; TrailingDotOrSpace;
   ReservedDeviceName].

(** The eleven characters of rule 3, by code point: less-than,
    greater-than, colon, double quote, slash, backslash, bar, question
    mark, star, exclamation mark, caret. *)
Definition forbidden : list N :=
  [60; 62; 58; 34; 47; 92; 124; 63; 42; 33; 94]%N.

Definition device_names : list str :=
  [py "CON"; py "PRN"; py "NUL"; py "AUX";
   py "COM1"; py "COM2"; py "COM3"; py "COM4"; py "COM5"; py "COM6";
   py "COM7"; py "COM8"; py "COM9";
   py "LPT1"; py "LPT2"; py "LPT3"; py "LPT4"; py "LPT5"; py "LPT6";
   py "LPT7"; py "LPT8"; py "LPT9"].

(** Equality of strings up to the case of the letters [A] to [Z]. *)
Definition fold_case (c : N) : N :=
  if ((65 <=? c) && (c <=? 90))%N then (c + 32)%N else c.

Definition ci_eq (a b : str) : bool :=
  str_eqb (map fold_case a) (map fold_case b).

(** The part of a name before its first dot. *)
Fixpoint stem (s : str) : str :=
  match s with
  | [] => []
  | c :: t => if N.eqb c 46 then [] else c :: stem t
  end.

Definition violates (r : rule) (image_id raw_name : str) : bool :=
  match r with
  | EmptyId => is_empty (strip image_id)
  | EmptyName => is_empty (strip raw_name)
  | InvalidCharacter =>
      existsb (fun c => char_in c forbidden) (strip raw_name)
  | OnlyDots => forallb (fun c => N.eqb c 46) (strip raw_name)
  | TrailingDotOrSpace =>
      match last raw_name with
      | Some c => N.eqb c 46 || N.eqb c 32
      | None => false
      end
  | ReservedDeviceName =>
      existsb (ci_eq (stem (strip raw_name))) device_names
  end.

Definition message (r : rule) : str :=
  match r with
  | EmptyId => Msg.empty_id
  | EmptyName => Msg.empty_name
  | InvalidCharacter => Msg.invalid_characters
  | OnlyDots => Msg.only_dots
  | TrailingDotOrSpace => Msg.trailing
  | ReservedDeviceName => Msg.reserved
  end.

Definition first_violation (image_id raw_name : str) : option rule :=
  find (fun r => violates r image_id raw_name) order.

End Spec.

(** ** The ways an invocation can go

    One rule for each path through [rename_image], with the outcome and the
    world that the path leaves; [rename_image_cases] below shows that every
    invocation follows one of them. *)

(** The text of the error that [os.rename] raises on the files [m], if it
    raises. *)
Definition rename_error (env : Env) (m : gmap str bytes) (src dst : str)
  : option str :=
  match m !! src with
  | None => Some (os.ENOENT_text2 src dst)
  | Some _ => fault env (OsRename src dst)
  end.

Section Cases.
Variables (request : RenameImageRequest) (env : Env) (w : World).

Let id := strip (image_id request).
Let new_name := strip (rename request).

Definition valid : Prop :=
  Spec.first_violation (image_id request) (rename request) = None.

Definition resolves_to (image_path : str) : Prop :=
  valid /\ db env id = Some image_path /\ image_path <> [].

Definition target (image_path : str) : str := new_file_path image_path new_name.

(** The placeholder was created and closed. *)
Definition reserved (image_path : str) : Prop :=
  fs w !! target image_path = None
  /\ fault env (OsOpen (target image_path)) = None
  /\ fault env (OsClose (Fd (target image_path))) = None.

Definition w_lookup : World := called (DbGetImagePathById id) w.
Definition w_open (p : str) : World := called (OsOpen (target p)) w_lookup.
Definition w_reserved (p : str) : World :=
  called (OsClose (Fd (target p)))
    (with_fs (<[target p := []]> (fs w)) (w_open p)).
Definition w_rename (p : str) : World :=
  called (OsRename p (target p)) (w_reserved p).
Definition w_unlink (p : str) : World :=
  called (OsUnlink (target p)) (w_rename p).

Inductive rename_case : outcome RenameImageResponse -> World -> Prop :=
| case_invalid r :
    Spec.first_violation (image_id request) (rename request) = Some r ->
    rename_case (Raise (validation_error (Spec.message r))) w
| case_not_found :
    valid ->
    falsy (db env id) = true ->
    rename_case (Raise (not_found id)) w_lookup
| case_exists p content :
    resolves_to p ->
    fs w !! target p = Some content ->
    rename_case (Raise file_exists) (w_open p)
| case_open_failed p text :
    resolves_to p ->
    fs w !! target p = None ->
    fault env (OsOpen (target p)) = Some text ->
    rename_case (Raise (internal_error text))
      (logged (Msg.error_renaming text) (w_open p))
| case_close_failed p text :
    resolves_to p ->
    fs w !! target p = None ->
    fault env (OsOpen (target p)) = None ->
    fault env (OsClose (Fd (target p))) = Some text ->
    rename_case (Raise (internal_error text))
      (logged (Msg.error_renaming text) (w_reserved p))
| case_rename_failed p text :
    resolves_to p ->
    reserved p ->
    rename_error env (fs (w_reserved p)) p (target p) = Some text ->
    fault env (OsUnlink (target p)) = None ->
    rename_case (Raise (internal_error text))
      (logged (Msg.error_renaming text)
         (with_fs (delete (target p) (fs (w_reserved p))) (w_unlink p)))
| case_cleanup_failed p text cleanup_text :
    resolves_to p ->
    reserved p ->
    rename_error env (fs (w_reserved p)) p (target p) = Some text ->
    fault env (OsUnlink (target p)) = Some cleanup_text ->
    rename_case (Raise (internal_error text))
      (logged (Msg.error_renaming text)
         (logged (Msg.cleanup_failed (target p) cleanup_text) (w_unlink p)))
| case_renamed p content :
    resolves_to p ->
    reserved p ->
    fs (w_reserved p) !! p = Some content ->
    fault env (OsRename p (target p)) = None ->
    rename_case
      (Return {| success := true;
                 message := Msg.renamed new_name (extension_of p) |})
      (with_fs (<[target p := content]> (delete p (fs (w_reserved p))))
         (w_rename p)).

End Cases.

(** The error kind and the status code of an answer, [None] on success. *)
Definition error_kind (o : outcome RenameImageResponse) : option (N * str) :=
  match o with
  | Raise (HTTPException code detail) => Some (code, error detail)
  | _ => None
  end.

(** A capital letter or a digit, the alphabet of the device names. *)
Definition cap_or_digit (c : N) : bool :=
  (((65 <=? c) && (c <=? 90)) || ((48 <=? c) && (c <=? 57)))%N.

(** What [dirname] returns: nothing, slashes only, or a path that does not
    end with a slash. *)
Inductive dir_shape : str -> Prop :=
| dir_empty : dir_shape []
| dir_root k : dir_shape (replicate (S k) posixpath.sep)
| dir_plain d x : x <> posixpath.sep -> dir_shape (d ++ [x]).

(** ** The claims of the specification that need their own wording *)
Module Stated.



End Stated.

(** ** A catalogue and a disk to run the endpoint on *)
Module Scenario.

Definition old_path : str := py "/data/old_name.jpg".
Definition content : bytes := String.list_byte_of_string "dummy image data".

Definition disk : World :=
  {| fs := {[ old_path := content ]}; log := []; calls := [] |}.

Definition catalogue (path : str) (id : str) : option str :=
  if str_eqb id (py "image_123") then Some path else None.

Definition calm : call -> option str := fun _ => None.

(** [os.rename] fails with "disk error", as in the test
    [test_rename_image_unexpected_error]. *)
Definition rename_fails : call -> option str :=
  fun c => match c with
           | OsRename _ _ => Some (py "disk error")
           | _ => None
           end.


Definition env : Env := {| db := catalogue old_path; fault := calm |}.

Definition request (name : string) : RenameImageRequest :=
  {| image_id := py "image_123"; rename := py name |}.


End Scenario.

(** ** The listing and the favourite endpoints

    [get_all_images] and [toggle_favourite] work on the rows that the
    database layer returns: dictionaries from column names to values. *)
Module Api.

(** Python values held by a row. *)
#[local] Set Warnings "-register-all".
Inductive value :=
| VNone
| VBool (b : bool)
| VInt (n : Z)
| VStr (s : str)
| VList (l : list value)
| VDict (d : list (str * value)).
#[local] Set Warnings "register-all".

(** [v == s] for a string [s]: only an equal string is equal to it. *)
Definition eq_str (v : value) (s : str) : bool :=
  match v with
  | VStr t => str_eqb t s
  | _ => false
  end.

(** The [detail] of an [HTTPException]: a string in [toggle_favourite], the
    dump of an [ErrorResponse] in [get_all_images]. *)
Inductive detail :=
| DetailStr (s : str)
| DetailError (e : ErrorResponse).

Inductive exn :=
| HTTPException (status_code : N) (d : detail)
| KeyError (key : str)
| AttributeError (text : str)
| Failure (text : str).     (* any exception of a collaborator, by its [str] *)

Inductive result (A : Type) :=
| Ok (a : A)
| Err (e : exn).
Arguments Ok {A} a.
Arguments Err {A} e.

(** [ImageData(...)] before and after the validation of pydantic. *)
Record ImageData := {
  id : value;
  path : value;
  folder_id : value;
  thumbnailPath : value;
  metadata : value;
  isTagged : value;
  isFavourite : value;
  tags : value
}.

Record GetAllImagesResponse := {
  success : bool;
  message : str;
  data : list ImageData
}.

Record ToggleFavouriteRequest := {
  image_id : str
}.

(** Modelled from the spec: the collaborators that the specification
    leaves outside.  The database layer ([app.database.images]) works on
    its own state [D] and may raise; [image_util_parse_metadata] and the
    validation of [ImageData] by pydantic return a value or raise;
    [http_exception_str] is [str(e)] of an [HTTPException], which belongs
    to the web framework. *)
Record Collaborators (D : Type) := {
  db_get_all_images : option bool -> D -> result (list (gmap str value)) * D;
  db_toggle_image_favourite_status : str -> D -> result bool * D;
  image_util_parse_metadata : value -> result value;
  validate_ImageData : ImageData -> result ImageData;
  http_exception_str : N -> detail -> str
}.
Arguments db_get_all_images {D} _ _ _.
Arguments db_toggle_image_favourite_status {D} _ _ _.
Arguments image_util_parse_metadata {D} _ _.
Arguments validate_ImageData {D} _ _.
Arguments http_exception_str {D} _ _ _.

(** The state of the two endpoints: the database and the log. *)
Record Site (D : Type) := {
  database : D;
  journal : list str
}.
Arguments database {D} _.
Arguments journal {D} _.

Definition H (D A : Type) : Type := Site D -> result A * Site D.

#[global] Instance H_ret {D} : MRet (H D) := fun A a s => (Ok a, s).

#[global] Instance H_bind {D} : MBind (H D) := fun A B k m s =>
  match m s with
  | (Ok a, s') => k a s'
  | (Err e, s') => (Err e, s')
  end.

Definition raise {D A} (e : exn) : H D A := fun s => (Err e, s).

Definition of_result {D A} (r : result A) : H D A := fun s => (r, s).

(** [try: body except Exception as e: handler e] *)
Definition try_except {D A} (body : H D A) (handler : exn -> H D A) : H D A :=
  fun s =>
    match body s with
    | (Ok a, s') => (Ok a, s')
    | (Err e, s') => handler e s'
    end.

Definition when {D} (c : bool) (body : H D unit) : H D unit :=
  if c then body else mret tt.

(** A call of the database layer. *)
Definition on_database {D A} (f : D -> result A * D) : H D A :=
  fun s => let '(r, d) := f (database s) in
           (r, {| database := d; journal := journal s |}).

(** [logger.error(msg)] *)
Definition logger_error {D} (msg : str) : H D unit :=
  fun s => (Ok tt, {| database := database s; journal := journal s ++ [msg] |}).

(** [row[key]] *)
Definition getitem (row : gmap str value) (key : string) : result value :=
  match row !! py key with
  | Some v => Ok v
  | None => Err (KeyError (py key))
  end.

(** [row.get(key, default)] *)
Definition get (row : gmap str value) (key : string) (default : value) : value :=
  match row !! py key with
  | Some v => v
  | None => default
  end.

Section Endpoints.
Context {D : Type} (c : Collaborators D).

(** [str(e)]; the key of a [KeyError] is rendered by [repr], for the
    column names of the source the name between single quotes. *)
Definition exn_str (e : exn) : str :=
  match e with
  | HTTPException code d => http_exception_str c code d
  | KeyError key => py "'" ++ key ++ py "'"
  | AttributeError text => text
  | Failure text => text
  end.

(** [f"{n}"] for a length *)
Definition len_str (n : nat) : str :=
  py (NilEmpty.string_of_uint (Nat.to_uint n)).

(** The element of the list comprehension of [get_all_images]: the keyword
    arguments are evaluated from left to right, then pydantic validates. *)
Definition image_data_of (image : gmap str value) : result ImageData :=
  match getitem image "id" with Err e => Err e | Ok id =>
  match getitem image "path" with Err e => Err e | Ok path =>
  match getitem image "folder_id" with Err e => Err e | Ok folder_id =>
  match getitem image "thumbnailPath" with Err e => Err e | Ok thumbnailPath =>
  match getitem image "metadata" with Err e => Err e | Ok raw_metadata =>
  match image_util_parse_metadata c raw_metadata with Err e => Err e | Ok metadata =>
  match getitem image "isTagged" with Err e => Err e | Ok isTagged =>
  let isFavourite := get image "isFavourite" (VBool false) in
  match getitem image "tags" with Err e => Err e | Ok tags =>
  validate_ImageData c
    {| id := id; path := path; folder_id := folder_id;
       thumbnailPath := thumbnailPath; metadata := metadata;
       isTagged := isTagged; isFavourite := isFavourite; tags := tags |}
  end end end end end end end end.

(** [[image_data_of(image) for image in images]] *)
Fixpoint comprehension (images : list (gmap str value)) : result (list ImageData) :=
  match images with
  | [] => Ok []
  | image :: rest =>
      match image_data_of image with
      | Err e => Err e
      | Ok d =>
          match comprehension rest with
          | Err e => Err e
          | Ok ds => Ok (d :: ds)
          end
      end
  end.

(** [get_all_images(tagged)], lines 52 to 89 *)
Definition get_all_images (tagged : option bool) : H D GetAllImagesResponse :=
  try_except
    (images ← on_database (db_get_all_images c tagged);
     image_data ← of_result (comprehension images);
     mret {| success := true;
             message := py "Successfully retrieved " ++ len_str (length image_data)
                        ++ py " images";
             data := image_data |})
    (fun e =>
       raise (HTTPException 500
                (DetailError
                   {| err_success := false;
                      error := py "Internal server error";
                      err_message := py "Unable to retrieve images: " ++ exn_str e |}))).

(** [next((img for img in images if img["id"] == image_id), None)] *)
Fixpoint next_with_id (image_id : str) (images : list (gmap str value))
  : result (option (gmap str value)) :=
  match images with
  | [] => Ok None
  | img :: rest =>
      match getitem img "id" with
      | Err e => Err e
      | Ok v => if eq_str v image_id then Ok (Some img)
                else next_with_id image_id rest
      end
  end.

(** [image.get("isFavourite", False)] on what [next] returned *)
Definition get_isFavourite (image : option (gmap str value)) : result value :=
  match image with
  | None => Err (AttributeError (py "'NoneType' object has no attribute 'get'"))
  | Some img => Ok (get img "isFavourite" (VBool false))
  end.

(** [toggle_favourite(req)], lines 100 to 120; the answer is the dictionary
    of line 112. *)
Definition toggle_favourite (req : ToggleFavouriteRequest)
  : H D (gmap str value) :=
  let image_id := image_id req in
  try_except
    (success ← on_database (db_toggle_image_favourite_status c image_id);
     when (negb success)
       (raise (HTTPException 404
                 (DetailStr (py "Image not found or failed to toggle"))));;
     images ← on_database (db_get_all_images c None);
     image ← of_result (next_with_id image_id images);
     isFavourite ← of_result (get_isFavourite image);
     mret (<[py "success" := VBool true]>
             (<[py "image_id" := VStr image_id]>
                (<[py "isFavourite" := isFavourite]> ∅))))
    (fun e =>
       logger_error (py "error in /toggle-favourite route: " ++ exn_str e);;
       raise (HTTPException 500
                (DetailStr (py "Internal server error: " ++ exn_str e)))).

End Endpoints.

End Api.

(** ** A database to run the two endpoints on

    The state is the list of rows.  The listing returns them all; the
    toggle flips [isFavourite] in the rows with the identifier and reports
    whether there was one. *)
Module ApiScenario.

Definition row_of (id : string) (favourite : option bool) : gmap str Api.value :=
  let base : gmap str Api.value :=
    <[py "id" := Api.VStr (py id)]>
      (<[py "path" := Api.VStr (py "/data/" ++ py id ++ py ".jpg")]>
         (<[py "folder_id" := Api.VStr (py "folder_1")]>
            (<[py "thumbnailPath" := Api.VStr (py "/thumbs/" ++ py id)]>
               (<[py "metadata" := Api.VStr (py "{}")]>
                  (<[py "isTagged" := Api.VBool false]>
                     (<[py "tags" := Api.VNone]> ∅)))))) in
  match favourite with
  | Some b => <[py "isFavourite" := Api.VBool b]> base
  | None => base
  end.

Definition rows : list (gmap str Api.value) :=
  [row_of "image_1" (Some true); row_of "image_123" None].

Definition has_id (id : str) (row : gmap str Api.value) : bool :=
  match row !! py "id" with
  | Some v => Api.eq_str v id
  | None => false
  end.

Definition flip (id : str) (row : gmap str Api.value) : gmap str Api.value :=
  if has_id id row then
    match Api.get row "isFavourite" (Api.VBool false) with
    | Api.VBool b => <[py "isFavourite" := Api.VBool (negb b)]> row
    | _ => row
    end
  else row.

(** Starlette renders an [HTTPException] as its status and its detail. *)
Definition http_str (code : N) (d : Api.detail) : str :=
  py (NilEmpty.string_of_uint (N.to_uint code)) ++ py ": "
  ++ match d with
     | Api.DetailStr s => s
     | Api.DetailError e => error e
     end.

Definition collaborators : Api.Collaborators (list (gmap str Api.value)) :=
  {| Api.db_get_all_images := fun _ d => (Api.Ok d, d);
     Api.db_toggle_image_favourite_status :=
       fun id d => (Api.Ok (existsb (has_id id) d), map (flip id) d);
     Api.image_util_parse_metadata := fun v => Api.Ok v;
     Api.validate_ImageData := fun d => Api.Ok d;
     Api.http_exception_str := http_str |}.

(** A database layer that toggles but then lists nothing, and one that
    fails. *)
Definition forgetful : Api.Collaborators (list (gmap str Api.value)) :=
  {| Api.db_get_all_images := fun _ d => (Api.Ok [], d);
     Api.db_toggle_image_favourite_status := fun id d => (Api.Ok true, d);
     Api.image_util_parse_metadata := fun v => Api.Ok v;
     Api.validate_ImageData := fun d => Api.Ok d;
     Api.http_exception_str := http_str |}.

Definition locked : Api.Collaborators (list (gmap str Api.value)) :=
  {| Api.db_get_all_images :=
       fun _ d => (Api.Err (Api.Failure (py "database is locked")), d);
     Api.db_toggle_image_favourite_status :=
       fun id d => (Api.Err (Api.Failure (py "database is locked")), d);
     Api.image_util_parse_metadata := fun v => Api.Ok v;
     Api.validate_ImageData := fun d => Api.Ok d;
     Api.http_exception_str := http_str |}.

Definition site (d : list (gmap str Api.value)) : Api.Site (list (gmap str Api.value)) :=
  {| Api.database := d; Api.journal := [] |}.

Definition toggle (id : string) : Api.ToggleFavouriteRequest :=
  {| Api.image_id := py id |}.

End ApiScenario.

(** ** Basic facts *)

Example dirname_ex : posixpath.dirname (py "/data/old_name.jpg") = py "/data".
Proof. reflexivity. Qed.
Example dirname_root : posixpath.dirname (py "//a.jpg") = py "//".
Proof. reflexivity. Qed.
Example splitext_ex : posixpath.splitext (py "/data/old_name.jpg") = (py "/data/old_name", py ".jpg").
Proof. reflexivity. Qed.
Example splitext_hidden : posixpath.splitext (py "/data/.bashrc") = (py "/data/.bashrc", []).
Proof. reflexivity. Qed.
Example splitext_dir_dot : posixpath.splitext (py "/da.ta/old") = (py "/da.ta/old", []).
Proof. reflexivity. Qed.
Example splitext_dots : posixpath.splitext (py "..a.b") = (py "..a", py ".b").
Proof. reflexivity. Qed.
Example join_ex : posixpath.join (py "/data") (py "new_name.jpg") = py "/data/new_name.jpg".
Proof. reflexivity. Qed.
Example strip_ex : PyStr.strip (py "  a b ") = py "a b".
Proof. reflexivity. Qed.
Example split_ex : PyStr.split1 (chr ".") (py "con.tar.gz") = [py "con"; py "tar.gz"].
Proof. reflexivity. Qed.
Example split_ex2 : PyStr.split1 (chr ".") (py ".CON") = [[]; py "CON"].
Proof. reflexivity. Qed.

(** *** Running the monad *)

Lemma bind_run {A B} (m : M A) (k : A -> M B) env f :
  (m ≫= k) env f =
  match m env f with
  | (Return a, f') => k a env f'
  | (Raise e, f') => (Raise e, f')
  end.
Proof. reflexivity. Qed.

Lemma when_false_run (body : M unit) env f : when false body env f = (Return tt, f).
Proof. reflexivity. Qed.

Lemma when_true_run (body : M unit) env f : when true body env f = body env f.
Proof. reflexivity. Qed.

(** *** The checks of the source against the rules of the specification *)

Lemma invalid_chars_forbidden c : char_in c invalid_chars = char_in c Spec.forbidden.
Proof.
  unfold char_in. apply bool_decide_ext.
  change invalid_chars with [60; 62; 58; 34; 47; 92; 92; 124; 63; 42; 33; 94]%N.
  unfold Spec.forbidden. rewrite !elem_of_cons. tauto.
Qed.

Lemma reserved_device_names_spec : reserved_device_names = Spec.device_names.
Proof. reflexivity. Qed.

Lemma endswith_last c s :
  endswith c s = match last s with Some x => N.eqb x c | None => false end.
Proof.
  unfold endswith. destruct s as [|x t] using rev_ind; [reflexivity|].
  rewrite rev_app_distr, last_snoc. reflexivity.
Qed.

Lemma trailing_check raw :
  negb (is_empty raw) && (endswith (chr ".") raw || endswith (chr " ") raw)
  = Spec.violates Spec.TrailingDotOrSpace [] raw.
Proof.
  simpl. rewrite !endswith_last.
  destruct raw as [|x t] using rev_ind; [reflexivity|].
  rewrite last_snoc. unfold is_empty, str_eqb.
  rewrite bool_decide_eq_false_2; [reflexivity|].
  intros H. apply (f_equal length) in H. rewrite length_app in H. simpl in H. lia.
Qed.

Lemma base_stem_stem s : base_stem s = Spec.stem s.
Proof.
  unfold base_stem. change (chr ".") with 46%N.
  induction s as [|c t IH]; [reflexivity|].
  cbn [split1 Spec.stem].
  destruct (N.eqb c 46); [reflexivity|].
  destruct (split1 46 t); simpl in *; congruence.
Qed.

Lemma fold_case_upper_char x y :
  cap_or_digit y = true ->
  Spec.fold_case x = Spec.fold_case y <-> upper_char x = y.
Proof.
  unfold cap_or_digit, Spec.fold_case, upper_char. intros Hy.
  repeat match goal with
         | |- context [N.leb ?a ?b] => destruct (N.leb_spec a b)
         | H : context [N.leb ?a ?b] |- _ => destruct (N.leb_spec a b)
         end; cbn [andb orb] in *; try discriminate; lia.
Qed.

Lemma ci_eq_upper d :
  forallb cap_or_digit d = true ->
  forall a, Spec.ci_eq a d = str_eqb (upper a) d.
Proof.
  unfold Spec.ci_eq, str_eqb, upper. intros Hd a.
  apply bool_decide_ext. revert a.
  induction d as [|y d IH]; intros [|x a]; simpl; try (split; discriminate); [tauto|].
  simpl in Hd. apply andb_prop in Hd as [Hy Hd'].
  specialize (IH Hd' a). pose proof (fold_case_upper_char x y Hy) as Hc.
  split; intros H; injection H as H1 H2; f_equal; tauto.
Qed.

Lemma str_in_existsb x (l : list str) :
  str_in x l = existsb (str_eqb x) l.
Proof.
  unfold str_in, str_eqb. induction l as [|d l IH]; cbn [existsb].
  - apply bool_decide_eq_false_2. apply not_elem_of_nil.
  - rewrite <- IH. clear IH.
    destruct (decide (x = d)) as [->|Hne].
    + rewrite (bool_decide_eq_true_2 (d = d)) by reflexivity.
      rewrite (bool_decide_eq_true_2 (d ∈ d :: l)) by (apply elem_of_cons; left; reflexivity).
      reflexivity.
    + rewrite (bool_decide_eq_false_2 (x = d)) by assumption. simpl.
      apply bool_decide_ext. rewrite elem_of_cons. tauto.
Qed.

Lemma existsb_ext_in {A} (f g : A -> bool) (l : list A) :
  (forall x, In x l -> f x = g x) -> existsb f l = existsb g l.
Proof.
  induction l as [|x l IH]; simpl; intros H; [reflexivity|].
  rewrite (H x) by auto. rewrite IH by auto. reflexivity.
Qed.

Lemma device_names_alphabet :
  forallb (forallb cap_or_digit) Spec.device_names = true.
Proof. reflexivity. Qed.

Lemma reserved_check id raw :
  negb (is_empty (base_stem (strip raw)))
  && str_in (upper (base_stem (strip raw))) reserved_device_names
  = Spec.violates Spec.ReservedDeviceName id raw.
Proof.
  cbn [Spec.violates]. rewrite base_stem_stem, reserved_device_names_spec.
  generalize (Spec.stem (strip raw)) as a. intros a.
  rewrite str_in_existsb.
  rewrite (existsb_ext_in (Spec.ci_eq a) (str_eqb (upper a))).
  2:{ intros d Hd. apply ci_eq_upper.
      pose proof device_names_alphabet as Hall.
      rewrite forallb_forall in Hall. auto. }
  destruct a as [|x a]; [reflexivity|].
  reflexivity.
Qed.

Lemma check_request_run id raw env f :
  check_request (strip id) raw (strip raw) env f =
  (match Spec.first_violation id raw with
   | Some r => Raise (validation_error (Spec.message r))
   | None => Return tt
   end, f).
Proof.
  unfold check_request, Spec.first_violation, Spec.order.
  rewrite (reserved_check id raw), (trailing_check raw).
  rewrite (existsb_ext_in _ (fun c => char_in c Spec.forbidden))
    by (intros; apply invalid_chars_forbidden).
  cbn [find Spec.violates]. change (chr ".") with 46%N.
  rewrite !bind_run.
  destruct (is_empty (strip id)); [reflexivity|]. rewrite when_false_run, !bind_run.
  destruct (is_empty (strip raw)); [reflexivity|]. rewrite when_false_run, !bind_run.
  destruct (existsb _ (strip raw)); [reflexivity|]. rewrite when_false_run, !bind_run.
  destruct (forallb _ (strip raw)); [reflexivity|]. rewrite when_false_run, !bind_run.
  destruct (last raw) as [c|].
  - destruct (N.eqb c 46 || N.eqb c 32); [reflexivity|]. rewrite when_false_run.
    destruct (existsb _ Spec.device_names); reflexivity.
  - rewrite when_false_run.
    destruct (existsb _ Spec.device_names); reflexivity.
Qed.

(** *** Every invocation follows one of the cases *)

Ltac run_monad :=
  repeat progress
  (cbv beta iota zeta delta
    [rename_image_body reserve_and_rename db_get_image_path_by_id
     os.open_excl os.close os.rename os.unlink os.unexpected try_except
     record_call set_fs logger_error get_world modify_world ask
     get_placeholder_created set_placeholder_created raise when
     mbind M_bind mret M_ret];
   cbn [world placeholder_created fs called with_fs logged default from_option id]).

(** The placeholder is there when the cleanup looks for it. *)
Ltac reserved_lookup :=
  match goal with
  | |- context [@lookup ?K ?V ?M ?I ?k (@insert ?K' ?V' ?M' ?I' ?k ?v ?m)] =>
      replace (@lookup K V M I k (@insert K' V' M' I' k v m)) with (Some v)
        by (symmetry; apply lookup_insert_eq)
  end.

Lemma falsy_false o : falsy o = false -> exists p, o = Some p /\ p <> [].
Proof.
  destruct o as [p|]; [|discriminate]. unfold falsy, is_empty, str_eqb.
  intros H. apply bool_decide_eq_false_1 in H. eauto.
Qed.

Lemma rename_image_cases request env w :
  rename_case request env w (rename_image request env w).1
    (rename_image request env w).2.
Proof.
  unfold rename_image. run_monad.
  rewrite check_request_run.
  destruct (Spec.first_violation _ _) as [r|] eqn:Hv.
  { now apply case_invalid. }
  run_monad.
  destruct (falsy (db env (strip (image_id request)))) eqn:Hf.
  { now apply case_not_found. }
  apply falsy_false in Hf as (p & Hdb & Hp). rewrite Hdb. run_monad.
  assert (Hres : resolves_to request env p) by (repeat split; assumption).
  change (new_file_path p (strip (rename request))) with (target request p).
  destruct (fs w !! target request p) as [content|] eqn:Hnew.
  { eapply case_exists; eassumption. }
  destruct (fault env (OsOpen (target request p))) as [text|] eqn:Hopen.
  { eapply case_open_failed; eassumption. }
  destruct (fault env (OsClose (Fd (target request p)))) as [text|] eqn:Hclose.
  { eapply case_close_failed; eassumption. }
  assert (Hrsv : reserved request env w p) by (repeat split; assumption).
  run_monad.
  destruct (<[target request p:=[]]> (fs w) !! p) as [content|] eqn:Hsrc.
  - destruct (fault env (OsRename p (target request p))) as [text|] eqn:Hren.
    + run_monad. reserved_lookup.
      assert (Herr : rename_error env (fs (w_reserved request w p)) p
                       (target request p) = Some text).
      { unfold rename_error. cbn [w_reserved fs called with_fs]. now rewrite Hsrc. }
      destruct (fault env (OsUnlink (target request p))) as [ctext|] eqn:Hunl.
      * eapply case_cleanup_failed; eassumption.
      * eapply case_rename_failed; eassumption.
    + eapply case_renamed; eassumption.
  - run_monad. reserved_lookup.
    assert (Herr : rename_error env (fs (w_reserved request w p)) p
                     (target request p)
                   = Some (os.ENOENT_text2 p (target request p))).
    { unfold rename_error. cbn [w_reserved fs called with_fs]. now rewrite Hsrc. }
    destruct (fault env (OsUnlink (target request p))) as [ctext|] eqn:Hunl.
    * eapply case_cleanup_failed; eassumption.
    * eapply case_rename_failed; eassumption.
Qed.

(** *** The cases exclude one another *)

Lemma resolves_to_inj request env p q :
  resolves_to request env p -> resolves_to request env q -> p = q.
Proof. intros (_ & Hp & _) (_ & Hq & _). congruence. Qed.

Lemma resolves_to_not_falsy request env p :
  resolves_to request env p ->
  falsy (db env (strip (image_id request))) = false.
Proof.
  intros (_ & Hp & Hne). rewrite Hp. cbn [falsy]. unfold is_empty, str_eqb.
  now apply bool_decide_eq_false_2.
Qed.

(** Split an invocation into its outcome, its final world and the case it
    follows. *)
Ltac by_cases request env w :=
  let H := fresh "Hcase" in
  pose proof (rename_image_cases request env w) as H;
  destruct (rename_image request env w) as [? ?];
  cbn [fst snd] in H; inversion H; clear H; subst;
  cbn [image_id rename] in *.

(** Close the cases that the hypotheses rule out. *)
Ltac other_case :=
  exfalso;
  repeat match goal with
         | H : valid _ |- _ => unfold valid in H
         | H : reserved _ _ _ _ |- _ => destruct H as (? & ? & ?)
         | H1 : resolves_to ?r ?e ?p, H2 : resolves_to ?r ?e ?q |- _ =>
             pose proof (resolves_to_inj r e p q H1 H2); subst q; clear H2
         | H1 : resolves_to ?r ?e ?p, H2 : falsy _ = true |- _ =>
             rewrite (resolves_to_not_falsy r e p H1) in H2
         | H : resolves_to _ _ _ |- _ => destruct H as (? & ? & ?)
         end;
  congruence.

Lemma rename_image_invalid request env w r :
  Spec.first_violation (image_id request) (rename request) = Some r ->
  rename_image request env w = (Raise (validation_error (Spec.message r)), w).
Proof.
  intros Hv. by_cases request env w; try other_case.
  congruence.
Qed.

Lemma rename_image_not_found request env w :
  valid request ->
  falsy (db env (strip (image_id request))) = true ->
  rename_image request env w =
  (Raise (not_found (strip (image_id request))), w_lookup request w).
Proof.
  intros Hv Hf. by_cases request env w; try other_case.
  reflexivity.
Qed.


Lemma rename_image_renamed_inv request env w resp w' :
  rename_image request env w = (Return resp, w') ->
  exists p content,
    resolves_to request env p /\ reserved request env w p
    /\ fs (w_reserved request w p) !! p = Some content
    /\ fault env (OsRename p (target request p)) = None
    /\ resp = {| success := true;
                 message := Msg.renamed (strip (rename request)) (extension_of p) |}
    /\ w' = with_fs (<[target request p := content]>
                       (delete p (fs (w_reserved request w p))))
              (w_rename request w p).
Proof.
  intros Hrun. pose proof (rename_image_cases request env w) as Hcase.
  rewrite Hrun in Hcase. cbn [fst snd] in Hcase.
  inversion Hcase; subst. eauto 10.
Qed.

(** *** What the rules of the specification say of a valid request *)

Lemma first_violation_none id raw :
  Spec.first_violation id raw = None ->
  forall r, Spec.violates r id raw = false.
Proof.
  unfold Spec.first_violation. intros H r.
  destruct (Spec.violates r id raw) eqn:Hr; [|reflexivity].
  assert (Hin : In r Spec.order) by (destruct r; simpl; tauto).
  pose proof (find_none _ _ H r Hin) as Hn. cbv beta in Hn. congruence.
Qed.

Lemma first_violation_some id raw r :
  Spec.violates r id raw = true ->
  exists r', Spec.first_violation id raw = Some r'.
Proof.
  intros Hr. destruct (Spec.first_violation id raw) as [r'|] eqn:Hf; [eauto|].
  rewrite (first_violation_none id raw Hf r) in Hr. discriminate.
Qed.

(** *** The files after a failure *)

Ltac open_reserved :=
  repeat match goal with
         | H : reserved _ _ _ _ |- _ => destruct H as (? & ? & ?)
         end.

(** The path of a case is the path [p] of the hypotheses. *)
Ltac same_path p :=
  match goal with
  | H1 : resolves_to ?r ?e p, H2 : resolves_to ?r ?e ?q |- _ =>
      first [ constr_eq p q; fail 1
            | pose proof (resolves_to_inj r e p q H1 H2); subst q ]
  | _ => idtac
  end.

Lemma placeholder_keeps_files (m : gmap str bytes) t q c :
  m !! t = None -> m !! q = Some c -> <[t := []]> m !! q = Some c.
Proof.
  intros Ht Hq. rewrite lookup_insert_ne; [assumption|]. congruence.
Qed.

Lemma failure_keeps_files request env w e w' :
  rename_case request env w (Raise e) w' ->
  forall q c, fs w !! q = Some c -> fs w' !! q = Some c.
Proof.
  intros Hcase q c Hq.
  inversion Hcase; subst;
    cbn [fs called with_fs logged w_lookup w_open w_reserved w_rename w_unlink];
    try assumption.
  all: open_reserved.
  - now apply placeholder_keeps_files.
  - rewrite delete_insert_id; assumption.
  - now apply placeholder_keeps_files.
Qed.

Lemma failure_restores_files request env w e w' :
  rename_case request env w (Raise e) w' ->
  (forall f, fault env (OsClose f) = None) ->
  (forall path, fault env (OsUnlink path) = None) ->
  fs w' = fs w.
Proof.
  intros Hcase Hclose Hunlink.
  inversion Hcase; subst;
    cbn [fs called with_fs logged w_lookup w_open w_reserved w_rename w_unlink];
    try reflexivity; try congruence.
  open_reserved. now apply delete_insert_id.
Qed.

Lemma rename_image_rename_failed request env w p text :
  resolves_to request env p ->
  reserved request env w p ->
  rename_error env (fs (w_reserved request w p)) p (target request p) = Some text ->
  rename_image request env w =
  (Raise (internal_error text),
   logged (Msg.error_renaming text)
     match fault env (OsUnlink (target request p)) with
     | None => with_fs (delete (target request p) (fs (w_reserved request w p)))
                 (w_unlink request w p)
     | Some cleanup_text =>
         logged (Msg.cleanup_failed (target request p) cleanup_text)
           (w_unlink request w p)
     end).
Proof.
  intros Hres Hrsv Herr. by_cases request env w; try other_case.
  all: same_path p.
  - match goal with H : fault env (OsUnlink _) = _ |- _ => rewrite H end.
    congruence.
  - match goal with H : fault env (OsUnlink _) = _ |- _ => rewrite H end.
    congruence.
  - unfold rename_error in Herr.
    match goal with H : _ !! p = Some _ |- _ => rewrite H in Herr end.
    congruence.
Qed.

(** *** Facts on [rfind] *)

Lemma rfind_from_notin c s i last :
  c ∉ s -> rfind_from c s i last = last.
Proof.
  revert i last. induction s as [|x t IH]; intros i last Hc; [reflexivity|].
  cbn [rfind_from]. apply not_elem_of_cons in Hc as [Hx Ht].
  rewrite IH by assumption.
  destruct (N.eqb_spec x c); congruence.
Qed.

Lemma rfind_from_app c a b i last :
  rfind_from c (a ++ b) i last
  = rfind_from c b (i + Z.of_nat (length a)) (rfind_from c a i last).
Proof.
  revert i last. induction a as [|x a IH]; intros i last.
  - cbn. f_equal. lia.
  - cbn [app rfind_from length]. rewrite IH. f_equal. lia.
Qed.

Lemma rfind_last c a b :
  c ∉ b -> rfind c (a ++ c :: b) = Z.of_nat (length a).
Proof.
  intros Hb. unfold rfind. rewrite rfind_from_app. cbn [rfind_from].
  rewrite N.eqb_refl, rfind_from_notin by assumption. lia.
Qed.

Lemma rfind_notin c s : c ∉ s -> rfind c s = -1.
Proof. apply rfind_from_notin. Qed.

(** A string either has no [c] or splits at its last [c]. *)
Lemma last_occurrence (c : N) (s : str) :
  c ∉ s \/ exists a b, s = a ++ c :: b /\ c ∉ b.
Proof.
  induction s as [|x t IH].
  - left. apply not_elem_of_nil.
  - destruct IH as [Hno|(a & b & -> & Hb)].
    + destruct (decide (x = c)) as [->|Hne].
      * right. exists [], t. split; [reflexivity|assumption].
      * left. apply not_elem_of_cons. split; [congruence|assumption].
    + right. exists (x :: a), b. split; [reflexivity|assumption].
Qed.

Lemma rfind_from_ge c b j l :
  c ∈ b -> j <= rfind_from c b j l.
Proof.
  intros Hc. destruct (last_occurrence c b) as [Hno|(a & b' & -> & Hb')];
    [contradiction|].
  rewrite rfind_from_app. cbn [rfind_from].
  rewrite N.eqb_refl, rfind_from_notin by assumption. lia.
Qed.

Lemma rfind_ge c a b :
  c ∈ b -> Z.of_nat (length a) <= rfind c (a ++ b).
Proof.
  intros Hc. unfold rfind. rewrite rfind_from_app.
  pose proof (rfind_from_ge c b (0 + Z.of_nat (length a))
                (rfind_from c a 0 (-1)) Hc). lia.
Qed.

(** *** Facts on [dirname] and [join] *)

Lemma drop_while_all f (s : str) :
  forallb f s = true -> drop_while f s = [].
Proof.
  induction s as [|x t IH]; [reflexivity|]. cbn [forallb drop_while].
  intros H. apply andb_prop in H as [Hx Ht]. rewrite Hx. auto.
Qed.

Lemma rstrip_char_snoc_same c s :
  rstrip_char c (s ++ [c]) = rstrip_char c s.
Proof.
  unfold rstrip_char. rewrite rev_app_distr. cbn [rev app drop_while].
  now rewrite N.eqb_refl.
Qed.

Lemma rstrip_char_snoc_other c s x :
  x <> c -> rstrip_char c (s ++ [x]) = s ++ [x].
Proof.
  intros Hx. unfold rstrip_char. rewrite rev_app_distr. cbn [rev app drop_while].
  destruct (N.eqb_spec c x); [congruence|].
  cbn [rev]. now rewrite rev_involutive.
Qed.

Lemma replicate_snoc {A} (x : A) k : replicate k x ++ [x] = replicate (S k) x.
Proof. induction k as [|k IH]; [reflexivity|]. cbn. now rewrite IH. Qed.

Lemma all_sep_replicate (s : str) :
  forallb (N.eqb posixpath.sep) s = true -> s = replicate (length s) posixpath.sep.
Proof.
  induction s as [|x t IH]; [reflexivity|]. cbn [forallb length replicate].
  intros H. apply andb_prop in H as [Hx Ht]. apply N.eqb_eq in Hx.
  rewrite <- IH by assumption. congruence.
Qed.

Lemma replicate_all_sep k :
  forallb (N.eqb posixpath.sep) (replicate k posixpath.sep) = true.
Proof.
  induction k as [|k IH]; [reflexivity|]. cbn [replicate forallb].
  now rewrite N.eqb_refl, IH.
Qed.

Lemma rstrip_char_shape (s : str) :
  forallb (N.eqb posixpath.sep) s = false ->
  dir_shape (rstrip_char posixpath.sep s).
Proof.
  induction s as [|x t IH] using rev_ind; [discriminate|].
  intros Hall. destruct (decide (x = posixpath.sep)) as [->|Hx].
  - rewrite rstrip_char_snoc_same. apply IH.
    rewrite forallb_app in Hall. cbn in Hall.
    now rewrite andb_true_r in Hall.
  - rewrite rstrip_char_snoc_other by assumption. now apply dir_plain.
Qed.

Lemma dirname_no_sep p : posixpath.sep ∉ p -> posixpath.dirname p = [].
Proof.
  intros Hp. unfold posixpath.dirname. now rewrite rfind_notin.
Qed.

Lemma dirname_split a b :
  posixpath.sep ∉ b ->
  posixpath.dirname (a ++ posixpath.sep :: b)
  = if forallb (N.eqb posixpath.sep) a then a ++ [posixpath.sep]
    else rstrip_char posixpath.sep a.
Proof.
  intros Hb. unfold posixpath.dirname. rewrite rfind_last by assumption.
  unfold slice_to.
  replace (Z.to_nat (Z.of_nat (length a) + 1)) with (length (a ++ [posixpath.sep]))
    by (rewrite length_app; cbn; lia).
  replace (a ++ posixpath.sep :: b) with ((a ++ [posixpath.sep]) ++ b)
    by (now rewrite <- app_assoc).
  rewrite take_app_length.
  unfold str_eqb, repeat_char.
  rewrite (bool_decide_eq_false_2 (a ++ [posixpath.sep] = []))
    by (intros H; apply (f_equal length) in H; rewrite length_app in H; cbn in H; lia).
  cbn [negb andb].
  destruct (forallb (N.eqb posixpath.sep) a) eqn:Hall.
  - rewrite bool_decide_eq_true_2; [reflexivity|].
    apply all_sep_replicate. rewrite forallb_app, Hall. reflexivity.
  - rewrite bool_decide_eq_false_2; [apply rstrip_char_snoc_same|].
    intros H. assert (Hall' : forallb (N.eqb posixpath.sep) (a ++ [posixpath.sep]) = true)
      by (rewrite H; apply replicate_all_sep).
    rewrite forallb_app, Hall in Hall'. discriminate.
Qed.

Lemma dirname_shape p : dir_shape (posixpath.dirname p).
Proof.
  destruct (last_occurrence posixpath.sep p) as [Hno|(a & b & -> & Hb)].
  - rewrite dirname_no_sep by assumption. constructor.
  - rewrite dirname_split by assumption.
    destruct (forallb (N.eqb posixpath.sep) a) eqn:Hall.
    + rewrite (all_sep_replicate a Hall), replicate_snoc. constructor.
    + now apply rstrip_char_shape.
Qed.

Lemma startswith_notin c (b : str) : c ∉ b -> startswith c b = false.
Proof.
  destruct b as [|x t]; [reflexivity|]. intros H.
  apply not_elem_of_cons in H as [Hx _]. cbn. now apply N.eqb_neq.
Qed.

(** [join] on a directory that [dirname] returned: the name follows the
    directory, after a slash unless the directory is empty. *)
Lemma join_cases d b :
  dir_shape d ->
  posixpath.sep ∉ b ->
  (d = [] /\ posixpath.join d b = b)
  \/ exists a,
       posixpath.join d b = a ++ posixpath.sep :: b
       /\ d = if forallb (N.eqb posixpath.sep) a then a ++ [posixpath.sep]
              else rstrip_char posixpath.sep a.
Proof.
  intros Hd Hb. unfold posixpath.join. rewrite startswith_notin by assumption.
  destruct Hd as [|k|d x Hx].
  - left. split; reflexivity.
  - right. exists (replicate k posixpath.sep). split.
    + assert (Hend : endswith posixpath.sep (replicate (S k) posixpath.sep) = true).
      { unfold endswith. rewrite <- replicate_snoc, rev_app_distr.
        cbn [rev app startswith]. apply N.eqb_refl. }
      rewrite Hend, orb_true_r.
      rewrite <- replicate_snoc, <- app_assoc. reflexivity.
    + now rewrite replicate_all_sep, replicate_snoc.
  - right. exists (d ++ [x]).
    assert (Hall : forallb (N.eqb posixpath.sep) (d ++ [x]) = false).
    { rewrite forallb_app. cbn [forallb].
      destruct (N.eqb_spec posixpath.sep x); [congruence|].
      now rewrite andb_false_r. }
    rewrite Hall, rstrip_char_snoc_other by assumption.
    split; [|reflexivity].
    unfold str_eqb. rewrite bool_decide_eq_false_2
      by (intros H; apply (f_equal length) in H; rewrite length_app in H; cbn in H; lia).
    unfold endswith. rewrite rev_app_distr. cbn [rev app startswith orb].
    destruct (N.eqb_spec x posixpath.sep); [congruence|reflexivity].
Qed.

Lemma dirname_join d b :
  dir_shape d -> posixpath.sep ∉ b ->
  posixpath.dirname (posixpath.join d b) = d.
Proof.
  intros Hd Hb. destruct (join_cases d b Hd Hb) as [[-> ->]|(a & -> & ->)].
  - now apply dirname_no_sep.
  - now apply dirname_split.
Qed.

(** *** Facts on [splitext] *)

Lemma rfind_lower c s : -1 <= rfind c s.
Proof.
  destruct (last_occurrence c s) as [Hno|(a & b & -> & Hb)].
  - rewrite rfind_notin by assumption. lia.
  - rewrite rfind_last by assumption. lia.
Qed.

Lemma splitext_loop_some p i dot n r :
  posixpath.splitext_loop p i dot n = Some r ->
  r = (slice_to p dot, slice_from p dot).
Proof.
  revert i. induction n as [|n IH]; intros i; cbn [posixpath.splitext_loop];
    [discriminate|].
  destruct (negb _); [congruence|apply IH].
Qed.

(** An extension is empty, or a dot followed by neither dot nor slash. *)
Lemma extension_shape p :
  extension_of p = []
  \/ exists e, extension_of p = posixpath.extsep :: e
               /\ (posixpath.extsep ∉ e) /\ (posixpath.sep ∉ e).
Proof.
  unfold extension_of, posixpath.splitext.
  destruct (rfind posixpath.extsep p >? rfind posixpath.sep p) eqn:Hgt;
    [|left; reflexivity].
  destruct (posixpath.splitext_loop _ _ _ _) as [r|] eqn:Hloop;
    [|left; reflexivity].
  apply splitext_loop_some in Hloop as ->. cbn [snd].
  apply Z.gtb_lt in Hgt. pose proof (rfind_lower posixpath.sep p) as Hlow.
  destruct (last_occurrence posixpath.extsep p) as [Hno|(a & b & -> & Hb)].
  { rewrite (rfind_notin _ _ Hno) in Hgt. lia. }
  rewrite (rfind_last _ _ _ Hb) in *. right. exists b.
  unfold slice_from. rewrite Nat2Z.id, drop_app_length.
  split; [reflexivity|]. split; [assumption|].
  intros Hsep.
  pose proof (rfind_ge posixpath.sep (a ++ [posixpath.extsep]) b Hsep) as Hge.
  rewrite <- app_assoc in Hge. cbn [app] in Hge.
  rewrite length_app in Hge. cbn [length] in Hge. lia.
Qed.

Lemma splitext_loop_finds pre n1 n2 rest dot :
  forallb (fun ch => N.eqb ch posixpath.extsep) n2 = false ->
  posixpath.splitext_loop (pre ++ n1 ++ n2 ++ rest)
    (Z.of_nat (length (pre ++ n1))) dot (length n2)
  = Some (slice_to (pre ++ n1 ++ n2 ++ rest) dot,
          slice_from (pre ++ n1 ++ n2 ++ rest) dot).
Proof.
  revert n1. induction n2 as [|x n2 IH]; intros n1 Hdots; [discriminate|].
  cbn [length posixpath.splitext_loop].
  assert (Hslice : slice (pre ++ n1 ++ (x :: n2) ++ rest)
                     (Z.of_nat (length (pre ++ n1)))
                     (Z.of_nat (length (pre ++ n1)) + 1) = [x]).
  { unfold slice. rewrite Nat2Z.id.
    replace (pre ++ n1 ++ (x :: n2) ++ rest)
      with ((pre ++ n1) ++ x :: n2 ++ rest) by (now rewrite <- app_assoc).
    rewrite drop_app_length.
    replace (Z.to_nat (Z.of_nat (length (pre ++ n1)) + 1 - Z.of_nat (length (pre ++ n1))))
      with 1%nat by lia.
    reflexivity. }
  rewrite Hslice. unfold str_eqb.
  cbn [forallb] in Hdots.
  destruct (N.eqb_spec x posixpath.extsep) as [->|Hx].
  - rewrite bool_decide_eq_true_2 by reflexivity. cbn [negb].
    cbn [andb] in Hdots. specialize (IH (n1 ++ [posixpath.extsep]) Hdots).
    replace (pre ++ n1 ++ (posixpath.extsep :: n2) ++ rest)
      with (pre ++ (n1 ++ [posixpath.extsep]) ++ n2 ++ rest)
      by (now rewrite <- !app_assoc).
    replace (Z.of_nat (length (pre ++ n1)) + 1)
      with (Z.of_nat (length (pre ++ n1 ++ [posixpath.extsep])))
      by (rewrite !length_app; cbn [length]; lia).
    exact IH.
  - rewrite bool_decide_eq_false_2 by congruence. reflexivity.
Qed.

(** The extension of [pre ++ n ++ "." ++ e] when the file name starts where
    [pre] ends, [n] is not made of dots only and [e] has no dot. *)
Lemma splitext_of_name pre n e :
  rfind posixpath.sep (pre ++ n ++ posixpath.extsep :: e) + 1
  = Z.of_nat (length pre) ->
  posixpath.extsep ∉ e ->
  forallb (fun ch => N.eqb ch posixpath.extsep) n = false ->
  extension_of (pre ++ n ++ posixpath.extsep :: e) = posixpath.extsep :: e.
Proof.
  intros Hsep He Hdots. unfold extension_of, posixpath.splitext.
  assert (Hdot : rfind posixpath.extsep (pre ++ n ++ posixpath.extsep :: e)
                 = Z.of_nat (length (pre ++ n))).
  { rewrite app_assoc. now apply rfind_last. }
  rewrite Hdot. rewrite length_app in *.
  replace (rfind posixpath.sep (pre ++ n ++ posixpath.extsep :: e))
    with (Z.of_nat (length pre) - 1) by lia.
  replace (Z.of_nat (length pre + length n) >? Z.of_nat (length pre) - 1)
    with true by (symmetry; apply Z.gtb_lt; lia).
  replace (Z.of_nat (length pre) - 1 + 1) with (Z.of_nat (length (pre ++ []))) 
    by (rewrite app_nil_r; lia).
  replace (Z.to_nat (Z.of_nat (length pre + length n) - Z.of_nat (length (pre ++ []))))
    with (length n) by (rewrite app_nil_r; lia).
  pose proof (splitext_loop_finds pre [] n (posixpath.extsep :: e)
                (Z.of_nat (length pre + length n)) Hdots) as Hloop.
  cbn [app] in Hloop. rewrite Hloop. cbn [snd].
  unfold slice_from. rewrite Nat2Z.id, <- length_app, app_assoc.
  apply drop_app_length.
Qed.

(** *** The target of a valid request *)

Lemma valid_name request :
  valid request ->
  strip (rename request) <> []
  /\ (posixpath.sep ∉ strip (rename request))
  /\ forallb (fun ch => N.eqb ch posixpath.extsep) (strip (rename request)) = false.
Proof.
  intros Hv. pose proof (first_violation_none _ _ Hv) as Hrules.
  pose proof (Hrules Spec.EmptyName) as Hname.
  pose proof (Hrules Spec.InvalidCharacter) as Hchars.
  pose proof (Hrules Spec.OnlyDots) as Hdots.
  cbn [Spec.violates] in *. split; [|split].
  - unfold is_empty, str_eqb in Hname. now apply bool_decide_eq_false_1 in Hname.
  - intros Hin.
    assert (Hex : existsb (fun c => char_in c Spec.forbidden)
                    (strip (rename request)) = true).
    { apply existsb_exists. exists posixpath.sep. split.
      - now apply list_elem_of_In.
      - reflexivity. }
    congruence.
  - exact Hdots.
Qed.

Lemma name_with_extension_no_sep request p :
  valid request ->
  posixpath.sep ∉ strip (rename request) ++ extension_of p.
Proof.
  intros Hv. destruct (valid_name request Hv) as (_ & Hsep & _).
  intros Hin. apply elem_of_app in Hin as [Hin|Hin]; [contradiction|].
  destruct (extension_shape p) as [He|(e & He & _ & Hse)]; rewrite He in Hin.
  - now apply elem_of_nil in Hin.
  - apply elem_of_cons in Hin as [Hin|Hin]; [discriminate Hin|contradiction].
Qed.

Lemma dirname_target request p :
  valid request ->
  posixpath.dirname (target request p) = posixpath.dirname p.
Proof.
  intros Hv. unfold target, new_file_path. apply dirname_join.
  - apply dirname_shape.
  - now apply name_with_extension_no_sep.
Qed.


(** A file that has an extension keeps it. *)
Lemma extension_of_target request p :
  valid request ->
  extension_of p <> [] ->
  extension_of (target request p) = extension_of p.
Proof.
  intros Hv Hext. destruct (valid_name request Hv) as (_ & Hsep & Hdots).
  pose proof (name_with_extension_no_sep request p Hv) as Hb.
  unfold target, new_file_path.
  destruct (extension_shape p) as [He|(e & He & Hee & Hse)]; [congruence|].
  rewrite He in *.
  destruct (join_cases (posixpath.dirname p)
              (strip (rename request) ++ posixpath.extsep :: e)
              (dirname_shape p) Hb) as [[_ ->]|(a & -> & _)].
  - apply (splitext_of_name [] _ e); [|assumption..].
    cbn [app length]. now rewrite rfind_notin.
  - replace (a ++ posixpath.sep :: strip (rename request) ++ posixpath.extsep :: e)
      with ((a ++ [posixpath.sep]) ++ strip (rename request) ++ posixpath.extsep :: e)
      by (now rewrite <- app_assoc).
    apply splitext_of_name; [|assumption..].
    rewrite <- app_assoc. cbn [app]. rewrite rfind_last by assumption.
    rewrite length_app. cbn [length]. lia.
Qed.


(** ** The claims *)

(** C4. The checks run in the order empty identifier, empty name, invalid
    character, only dots, trailing dot or space, reserved device name, and
    the first rule that fails decides the answer: a [Validation Error] with
    status 400 carrying that rule's message, in a world left exactly as it
    was (no lookup, no file call).  When no rule fails, the next thing the
    endpoint does is the lookup of the trimmed identifier. *)
Theorem validation_order_first_fail_wins request env w :
  match Spec.first_violation (image_id request) (rename request) with
  | Some r =>
      rename_image request env w =
      (Raise (HTTPException 400
                {| err_success := false;
                   error := py "Validation Error";
                   err_message := Spec.message r |}), w)
  | None =>
      exists rest,
        calls (rename_image request env w).2 =
        calls w ++ DbGetImagePathById (strip (image_id request)) :: rest
  end.
Proof.
  destruct (Spec.first_violation _ _) as [r|] eqn:Hv.
  - now apply rename_image_invalid.
  - by_cases request env w; try other_case;
      cbn [calls called with_fs logged w_lookup w_open w_reserved w_rename w_unlink snd];
      rewrite <- ?app_assoc; eexists; reflexivity.
Qed.

(** C7. A name whose trimmed form holds one of the eleven forbidden
    characters is refused with a [Validation Error] (that of the empty
    identifier when the identifier is blank, that of the invalid characters
    otherwise) and the world is left as it was. *)
Theorem invalid_character_rejected request env w c :
  c ∈ strip (rename request) ->
  c ∈ Spec.forbidden ->
  rename_image request env w =
  (Raise (HTTPException 400
            {| err_success := false;
               error := py "Validation Error";
               err_message := if is_empty (strip (image_id request))
                              then Msg.empty_id
                              else Msg.invalid_characters |}), w).
Proof.
  intros Hc Hbad.
  assert (Hfirst : Spec.first_violation (image_id request) (rename request)
                   = Some (if is_empty (strip (image_id request))
                           then Spec.EmptyId else Spec.InvalidCharacter)).
  { unfold Spec.first_violation, Spec.order. cbn [find Spec.violates].
    destruct (is_empty (strip (image_id request))); [reflexivity|].
    destruct (strip (rename request)) as [|x t] eqn:Hn.
    { apply elem_of_nil in Hc. contradiction. }
    replace (is_empty (x :: t)) with false by reflexivity.
    replace (existsb (fun c0 => char_in c0 Spec.forbidden) (x :: t)) with true;
      [reflexivity|].
    symmetry. apply existsb_exists. exists c. split.
    - now apply list_elem_of_In.
    - unfold char_in. now apply bool_decide_eq_true_2. }
  rewrite (rename_image_invalid _ env w _ Hfirst).
  destruct (is_empty (strip (image_id request))); reflexivity.
Qed.

(** C8. A name whose trimmed stem before the first dot is, up to case, one
    of CON, PRN, NUL, AUX, COM1 to COM9, LPT1 to LPT9 is refused with a
    [Validation Error], and the world is left as it was. *)
Theorem reserved_device_name_rejected request env w d :
  d ∈ Spec.device_names ->
  Spec.ci_eq (Spec.stem (strip (rename request))) d = true ->
  exists r,
    rename_image request env w =
    (Raise (HTTPException 400
              {| err_success := false;
                 error := py "Validation Error";
                 err_message := Spec.message r |}), w).
Proof.
  intros Hd Heq.
  destruct (first_violation_some (image_id request) (rename request)
              Spec.ReservedDeviceName) as [r Hr].
  { cbn [Spec.violates]. apply existsb_exists. exists d. split; [|assumption].
    now apply list_elem_of_In. }
  exists r. now apply rename_image_invalid.
Qed.

(** C10. When the trimmed name starts with a dot, the stem before the first
    dot is empty, so the guard of the reserved-device check is false and
    the endpoint never answers with the reserved-device error; the name
    [.CON] itself passes all six rules. *)
Theorem leading_dot_skips_reserved_check id raw t :
  strip raw = chr "." :: t ->
  base_stem (strip raw) = []
  /\ negb (is_empty (base_stem (strip raw)))
     && str_in (upper (base_stem (strip raw))) reserved_device_names = false
  /\ (forall env w,
        (rename_image {| image_id := id; rename := raw |} env w).1
        <> Raise (validation_error Msg.reserved))
  /\ (raw = py ".CON" -> strip id <> [] -> Spec.first_violation id raw = None).
Proof.
  intros Hdot.
  assert (Hstem : base_stem (strip raw) = []) by (rewrite Hdot; reflexivity).
  assert (Hguard : Spec.violates Spec.ReservedDeviceName id raw = false).
  { rewrite <- reserved_check, Hstem. reflexivity. }
  split; [assumption|]. split; [rewrite Hstem; reflexivity|]. split.
  - intros env w.
    destruct (Spec.first_violation id raw) as [r|] eqn:Hv.
    + rewrite (rename_image_invalid {| image_id := id; rename := raw |} env w r Hv).
      cbn [fst]. unfold validation_error. intros H.
      assert (Hmsg : Spec.message r = Msg.reserved) by congruence.
      destruct r; try (vm_compute in Hmsg; discriminate Hmsg).
      unfold Spec.first_violation in Hv. apply find_some in Hv as [_ Hv].
      congruence.
    + by_cases {| image_id := id; rename := raw |} env w;
        try other_case; cbn [fst]; intros Hne;
        apply (f_equal error_kind) in Hne; vm_compute in Hne; discriminate Hne.
  - intros -> Hid. unfold Spec.first_violation, Spec.order.
    cbn [find Spec.violates].
    replace (is_empty (strip id)) with false; [reflexivity|].
    symmetry. unfold is_empty, str_eqb. now apply bool_decide_eq_false_2.
Qed.

(** C6. When the request passes the six rules and the lookup of the trimmed
    identifier gives no path ([None], or an empty path, which the code
    treats alike), the endpoint answers [Image Not Found] with status 404;
    the lookup is the only call it made: no file primitive was called, the
    files and the log are as they were. *)
Theorem not_found_without_file_call request env w :
  Spec.first_violation (image_id request) (rename request) = None ->
  falsy (db env (strip (image_id request))) = true ->
  let '(r, w') := rename_image request env w in
  r = Raise (HTTPException 404
               {| err_success := false;
                  error := py "Image Not Found";
                  err_message := py "Image with ID '" ++ strip (image_id request)
                                 ++ py "' does not exist." |})
  /\ calls w' = calls w ++ [DbGetImagePathById (strip (image_id request))]
  /\ fs w' = fs w
  /\ log w' = log w.
Proof.
  intros Hv Hf. rewrite (rename_image_not_found request env w Hv Hf).
  repeat split.
Qed.


(** C3. When the placeholder was created and [os.rename] then raises, the
    endpoint calls [os.unlink] on the placeholder and answers
    [Internal server error] with status 500 and the text of the error of
    [os.rename]; the original file stays.  If the deletion succeeds the
    files are as before the call; if it fails the placeholder stays, the
    failure is logged, and the answer is the same. *)
Theorem cleanup_on_rename_failure request env w p text :
  Spec.first_violation (image_id request) (rename request) = None ->
  db env (strip (image_id request)) = Some p ->
  p <> [] ->
  fs w !! (target request p) = None ->
  fault env (OsOpen (target request p)) = None ->
  fault env (OsClose (Fd (target request p))) = None ->
  rename_error env (<[(target request p) := []]> (fs w)) p (target request p) = Some text ->
  let '(r, w') := rename_image request env w in
  r = Raise (HTTPException 500
               {| err_success := false;
                  error := py "Internal server error";
                  err_message := py "Unable to rename image: " ++ text |})
  /\ calls w' = calls w ++ [DbGetImagePathById (strip (image_id request));
                            OsOpen (target request p); OsClose (Fd (target request p));
                            OsRename p (target request p); OsUnlink (target request p)]
  /\ (forall content, fs w !! p = Some content -> fs w' !! p = Some content)
  /\ match fault env (OsUnlink (target request p)) with
     | None =>
         fs w' = fs w
         /\ log w' = log w ++ [Msg.error_renaming text]
     | Some cleanup_text =>
         fs w' = <[(target request p) := []]> (fs w)
         /\ log w' = log w ++ [Msg.cleanup_failed (target request p) cleanup_text;
                               Msg.error_renaming text]
     end.
Proof.
  intros Hv Hdb Hp Hnew Hopen Hclose Herr.
  assert (Hres : resolves_to request env p) by (repeat split; assumption).
  assert (Hrsv : reserved request env w p) by (repeat split; assumption).
  rewrite (rename_image_rename_failed request env w p text Hres Hrsv Herr).
  split; [reflexivity|]. split.
  { destruct (fault env (OsUnlink (target request p)));
      cbn [calls called with_fs logged w_lookup w_open w_reserved w_rename w_unlink];
      now rewrite <- !app_assoc. }
  destruct (fault env (OsUnlink (target request p))) as [cleanup_text|];
    cbn [fs log called with_fs logged w_lookup w_open w_reserved w_rename w_unlink].
  - split; [|split].
    + intros content Hc. now apply placeholder_keeps_files.
    + reflexivity.
    + now rewrite <- app_assoc.
  - rewrite (delete_insert_id (fs w) (target request p) [] Hnew). repeat split.
    intros content Hc. assumption.
Qed.

(** C5. After a successful rename the file is at the directory of its
    current path joined with the trimmed name followed by the extension of
    the current path, and the answer is the success message built from the
    trimmed name and that extension.  With the current path
    [/data/old_name.jpg] and the name [new_name] the new path is
    [/data/new_name.jpg] and the message names [new_name.jpg]. *)
Theorem renamed_path_and_message request env w resp w' :
  rename_image request env w = (Return resp, w') ->
  exists p,
    db env (strip (image_id request)) = Some p
    /\ let new_name := strip (rename request) in
       let extension := (posixpath.splitext p).2 in
       let new_path := posixpath.join (posixpath.dirname p) (new_name ++ extension) in
       resp = {| success := true;
                 message := py "Successfully renamed image to '" ++ new_name
                            ++ extension ++ py "'" |}
       /\ last (calls w') = Some (OsRename p new_path)
       /\ is_Some (fs w' !! new_path)
       /\ (forall content, fs w !! p = Some content ->
                           fs w' !! new_path = Some content)
       /\ (p = py "/data/old_name.jpg" -> new_name = py "new_name" ->
           new_path = py "/data/new_name.jpg"
           /\ message resp = py "Successfully renamed image to 'new_name.jpg'").
Proof.
  intros Hrun.
  apply rename_image_renamed_inv in Hrun
    as (p & content & Hres & Hrsv & Hsrc & Hren & -> & ->).
  destruct Hres as (Hv & Hdb & Hp). destruct Hrsv as (Hnew & Hopen & Hclose).
  exists p. split; [assumption|]. cbv zeta.
  change (posixpath.join (posixpath.dirname p)
            (strip (rename request) ++ (posixpath.splitext p).2))
    with (target request p).
  cbn [fs calls called with_fs w_lookup w_open w_reserved w_rename] in *.
  split; [reflexivity|]. split; [apply last_snoc|].
  split; [rewrite lookup_insert_eq; eauto|]. split.
  - intros c Hc. rewrite lookup_insert_eq.
    rewrite lookup_insert_ne in Hsrc by congruence. congruence.
  - intros -> Hname. unfold target. rewrite Hname. split; reflexivity.
Qed.






(** ** The claims at work on the scenario *)

Lemma invalid_character_rejected_witness :
  chr "*" ∈ strip (rename (Scenario.request "bad*name"))
  /\ rename_image (Scenario.request "bad*name") Scenario.env Scenario.disk
     = (Raise (HTTPException 400
                 {| err_success := false;
                    error := py "Validation Error";
                    err_message := Msg.invalid_characters |}), Scenario.disk).
Proof.
  assert (Hc : chr "*" ∈ strip (rename (Scenario.request "bad*name")))
    by (vm_compute; repeat constructor).
  split; [exact Hc|].
  apply (invalid_character_rejected (Scenario.request "bad*name")
           Scenario.env Scenario.disk (chr "*") Hc).
  vm_compute; repeat constructor.
Defined.

Lemma reserved_device_name_rejected_witness :
  exists r,
    rename_image (Scenario.request "con.txt") Scenario.env Scenario.disk
    = (Raise (HTTPException 400
                {| err_success := false;
                   error := py "Validation Error";
                   err_message := Spec.message r |}), Scenario.disk).
Proof.
  apply (reserved_device_name_rejected (Scenario.request "con.txt")
           Scenario.env Scenario.disk (py "CON")).
  - vm_compute; repeat constructor.
  - vm_compute; reflexivity.
Defined.

Lemma leading_dot_skips_reserved_check_witness :
  strip (py ".CON") = chr "." :: py "CON"
  /\ base_stem (strip (py ".CON")) = []
  /\ Spec.first_violation (py "image_123") (py ".CON") = None.
Proof.
  assert (Hdot : strip (py ".CON") = chr "." :: py "CON") by reflexivity.
  destruct (leading_dot_skips_reserved_check (py "image_123") (py ".CON")
              (py "CON") Hdot) as (Hstem & _ & _ & Hpass).
  split; [exact Hdot|]. split; [exact Hstem|].
  apply Hpass; [reflexivity|]. vm_compute. discriminate.
Defined.

Lemma not_found_without_file_call_witness :
  let '(r, w') := rename_image (Scenario.request "new_name")
                    {| db := fun _ => None; fault := Scenario.calm |}
                    Scenario.disk in
  error_kind r = Some (404%N, py "Image Not Found")
  /\ calls w' = [DbGetImagePathById (py "image_123")]
  /\ fs w' = fs Scenario.disk.
Proof.
  pose proof (not_found_without_file_call (Scenario.request "new_name")
                {| db := fun _ => None; fault := Scenario.calm |}
                Scenario.disk eq_refl eq_refl) as H.
  destruct (rename_image _ _ _) as [r w'].
  destruct H as (-> & Hcalls & Hfs & _). repeat split; assumption.
Defined.


Lemma cleanup_on_rename_failure_witness :
  let env := {| db := Scenario.catalogue Scenario.old_path;
                fault := Scenario.rename_fails |} in
  let '(r, w') := rename_image (Scenario.request "new_name") env Scenario.disk in
  error_kind r = Some (500%N, py "Internal server error")
  /\ fs w' = fs Scenario.disk
  /\ log w' = [py "Error renaming image: disk error"].
Proof.
  intros env.
  pose proof (cleanup_on_rename_failure (Scenario.request "new_name") env
                Scenario.disk Scenario.old_path (py "disk error")
                eq_refl eq_refl) as H.
  destruct (rename_image _ _ _) as [r w'].
  destruct H as (-> & _ & _ & Hfs & Hlog).
  - vm_compute. discriminate.
  - vm_compute. reflexivity.
  - reflexivity.
  - reflexivity.
  - vm_compute. reflexivity.
  - repeat split; assumption.
Defined.

Lemma renamed_path_and_message_witness :
  exists w',
    rename_image (Scenario.request "new_name") Scenario.env Scenario.disk
    = (Return {| success := true;
                 message := py "Successfully renamed image to 'new_name.jpg'" |},
       w')
    /\ fs w' !! py "/data/new_name.jpg" = Some Scenario.content
    /\ fs w' !! py "/data/old_name.jpg" = None.
Proof.
  exists (rename_image (Scenario.request "new_name") Scenario.env Scenario.disk).2.
  assert (Hrun :
    rename_image (Scenario.request "new_name") Scenario.env Scenario.disk
    = (Return {| success := true;
                 message := py "Successfully renamed image to 'new_name.jpg'" |},
       (rename_image (Scenario.request "new_name") Scenario.env Scenario.disk).2))
    by (vm_compute; reflexivity).
  split; [exact Hrun|].
  destruct (renamed_path_and_message _ _ _ _ _ Hrun)
    as (p & Hdb & _ & _ & _ & Hcontent & Hexample).
  assert (p = py "/data/old_name.jpg") as ->
    by (vm_compute in Hdb |- *; congruence).
  destruct (Hexample eq_refl eq_refl) as [Hpath _].
  split.
  - rewrite <- Hpath. apply Hcontent. vm_compute. reflexivity.
  - vm_compute. reflexivity.
Defined.



(** ** Further properties of [rename_image] *)

(** X1. No file is lost: a file that was there before the call is there
    afterwards with the same content, at its path or, for the renamed
    image after a success, at the new path.  In particular a file at the
    target path is never overwritten. *)
Theorem no_file_is_lost request env w r w' q content :
  rename_image request env w = (r, w') ->
  fs w !! q = Some content ->
  fs w' !! q = Some content
  \/ (exists resp, r = Return resp)
     /\ db env (strip (image_id request)) = Some q
     /\ fs w' !! new_file_path q (strip (rename request)) = Some content.
Proof.
  intros Hrun Hq. destruct r as [resp|e].
  - apply rename_image_renamed_inv in Hrun
      as (p & c & Hres & Hrsv & Hsrc & Hren & -> & ->).
    destruct Hres as (Hv & Hdb & Hp). destruct Hrsv as (Hnew & _ & _).
    cbn [fs with_fs called w_lookup w_open w_reserved w_rename] in *.
    assert (Hqt : q <> target request p) by congruence.
    destruct (decide (q = p)) as [->|Hqp].
    + right. split; [eauto|]. split; [assumption|].
      fold (target request p). rewrite lookup_insert_eq.
      rewrite lookup_insert_ne in Hsrc by congruence. congruence.
    + left. rewrite lookup_insert_ne by congruence.
      rewrite lookup_delete_ne by congruence.
      rewrite lookup_insert_ne by congruence. assumption.
  - left. pose proof (rename_image_cases request env w) as Hcase.
    rewrite Hrun in Hcase. cbn [fst snd] in Hcase.
    eapply failure_keeps_files; eassumption.
Qed.

(** X2. The call touches at most two paths: whatever the outcome, a path
    whose content differs after the call is the catalogue path of the image
    or the target path computed from it. *)
Theorem only_old_and_new_path_change request env w r w' q :
  rename_image request env w = (r, w') ->
  fs w' !! q <> fs w !! q ->
  exists p,
    db env (strip (image_id request)) = Some p
    /\ (q = p \/ q = new_file_path p (strip (rename request))).
Proof.
  intros Hrun Hq. pose proof (rename_image_cases request env w) as Hcase.
  rewrite Hrun in Hcase. cbn [fst snd] in Hcase.
  inversion Hcase; subst;
    cbn [fs with_fs called logged w_lookup w_open w_reserved w_rename w_unlink] in Hq;
    try (exfalso; apply Hq; reflexivity);
    match goal with
    | H : resolves_to _ _ ?p |- _ =>
        exists p; destruct H as (_ & Hdb & _); split; [exact Hdb|]
    end;
    fold (target request p);
    destruct (decide (q = target request p)) as [|Hqt]; try (right; assumption);
    destruct (decide (q = p)) as [|Hqp]; try (left; assumption);
    exfalso; apply Hq.
  - now rewrite lookup_insert_ne by congruence.
  - rewrite lookup_delete_ne by congruence. now rewrite lookup_insert_ne by congruence.
  - now rewrite lookup_insert_ne by congruence.
  - rewrite lookup_insert_ne by congruence. rewrite lookup_delete_ne by congruence.
    now rewrite lookup_insert_ne by congruence.
Qed.

(** X3. The endpoint never lets another exception than [HTTPException]
    out, and its answers are the five of its table: success, or
    400 [Validation Error], 404 [Image Not Found], 400 [File Exists],
    500 [Internal server error]. *)
Theorem answers_are_those_of_the_table request env w :
  (exists resp,
      (rename_image request env w).1 = Return resp /\ success resp = true)
  \/ (exists code detail,
        (rename_image request env w).1 = Raise (HTTPException code detail)
        /\ err_success detail = false
        /\ (code, error detail)
           ∈ [(400%N, py "Validation Error"); (404%N, py "Image Not Found");
              (400%N, py "File Exists"); (500%N, py "Internal server error")]).
Proof.
  by_cases request env w; cbn [fst];
    try (right; do 2 eexists; split; [reflexivity|]; split; [reflexivity|];
         cbn [error]; unfold status.HTTP_400_BAD_REQUEST,
           status.HTTP_404_NOT_FOUND, status.HTTP_500_INTERNAL_SERVER_ERROR;
         rewrite !elem_of_cons; tauto).
  left. eauto.
Qed.

(** X4. The log is written exactly on the answers with status 500: such an
    answer carries the text of an error, and the last line of the log is
    that same text after "Error renaming image: "; every other outcome
    leaves the log as it was. *)
Theorem log_is_written_on_internal_errors_only request env w r w' :
  rename_image request env w = (r, w') ->
  match r with
  | Raise (HTTPException code detail) =>
      if N.eqb code 500 then
        exists text,
          err_message detail = py "Unable to rename image: " ++ text
          /\ last (log w') = Some (py "Error renaming image: " ++ text)
      else log w' = log w
  | _ => log w' = log w
  end.
Proof.
  intros Hrun. pose proof (rename_image_cases request env w) as Hcase.
  rewrite Hrun in Hcase. cbn [fst snd] in Hcase.
  inversion Hcase; subst;
    cbn [log with_fs called logged w_lookup w_open w_reserved w_rename w_unlink];
    try reflexivity;
    (exists text; split; [reflexivity|apply last_snoc]).
Qed.


Ltac protocol p tr :=
  exists p, tr; split;
  [ cbn [calls with_fs called logged w_lookup w_open w_reserved w_rename w_unlink];
    rewrite <- ?app_assoc; first [reflexivity | symmetry; apply app_nil_r]
  | split;
    [ repeat apply prefix_cons; apply prefix_nil
    | cbn [length]; intros; first [assumption | lia] ] ].

(** X6. The external calls of one invocation are a prefix of the protocol
    lookup, exclusive creation, close, rename, unlink, in this order and on
    the target path: [os.rename] is only called after the placeholder was
    created and closed, [os.unlink] only after [os.rename]. *)
Theorem calls_follow_the_protocol request env w :
  exists p trace,
    calls (rename_image request env w).2 = calls w ++ trace
    /\ trace `prefix_of`
         [DbGetImagePathById (strip (image_id request));
          OsOpen (target request p); OsClose (Fd (target request p));
          OsRename p (target request p); OsUnlink (target request p)]
    /\ (2 <= length trace -> db env (strip (image_id request)) = Some p)%nat.
Proof.
  by_cases request env w; cbn [snd];
    repeat match goal with
           | H : resolves_to _ _ _ |- _ => destruct H as (_ & Hdb & _)
           end.
  - protocol (@nil N) (@nil call).
  - protocol (@nil N) [DbGetImagePathById (strip (image_id request))].
  - protocol p [DbGetImagePathById (strip (image_id request));
                OsOpen (target request p)].
  - protocol p [DbGetImagePathById (strip (image_id request));
                OsOpen (target request p)].
  - protocol p [DbGetImagePathById (strip (image_id request));
                OsOpen (target request p); OsClose (Fd (target request p))].
  - protocol p [DbGetImagePathById (strip (image_id request));
                OsOpen (target request p); OsClose (Fd (target request p));
                OsRename p (target request p); OsUnlink (target request p)].
  - protocol p [DbGetImagePathById (strip (image_id request));
                OsOpen (target request p); OsClose (Fd (target request p));
                OsRename p (target request p); OsUnlink (target request p)].
  - protocol p [DbGetImagePathById (strip (image_id request));
                OsOpen (target request p); OsClose (Fd (target request p));
                OsRename p (target request p)].
Qed.

(** X7. A valid name cannot move the file to another directory: the target
    path has the directory of the current path. *)
Theorem renamed_file_stays_in_its_directory request p :
  Spec.first_violation (image_id request) (rename request) = None ->
  posixpath.dirname (new_file_path p (strip (rename request)))
  = posixpath.dirname p.
Proof. intros Hv. now apply (dirname_target request p). Qed.

(** X8. A file that has an extension keeps it: the extension of the target
    path is the extension of the current path, whatever dots the new name
    holds. *)
Theorem renamed_file_keeps_its_extension request p :
  Spec.first_violation (image_id request) (rename request) = None ->
  (posixpath.splitext p).2 <> [] ->
  (posixpath.splitext (new_file_path p (strip (rename request)))).2
  = (posixpath.splitext p).2.
Proof. intros Hv Hext. now apply (extension_of_target request p). Qed.

(** *** Padding with white space *)

Lemma drop_while_pad_left f (a s : str) :
  forallb f a = true -> drop_while f (a ++ s) = drop_while f s.
Proof.
  induction a as [|x a IH]; [reflexivity|]. cbn [forallb app drop_while].
  intros H. apply andb_prop in H as [Hx Ha]. rewrite Hx. auto.
Qed.

Lemma rstrip_pad_right (s b : str) :
  forallb isspace b = true -> rstrip (s ++ b) = rstrip s.
Proof.
  intros Hb. unfold rstrip. rewrite rev_app_distr, drop_while_pad_left;
    [reflexivity|].
  rewrite forallb_forall in *. intros x Hx. apply Hb. now apply in_rev.
Qed.

Lemma strip_pad (a s b : str) :
  forallb isspace a = true -> forallb isspace b = true ->
  strip (a ++ s ++ b) = strip s.
Proof.
  intros Ha Hb. unfold strip, lstrip. rewrite drop_while_pad_left by assumption.
  induction s as [|x s IH].
  - cbn [app]. now rewrite drop_while_all.
  - cbn [app drop_while]. destruct (isspace x); [exact IH|].
    now apply (rstrip_pad_right (x :: s) b).
Qed.

Lemma last_pad_left {A} (a s : list A) : s <> [] -> last (a ++ s) = last s.
Proof.
  intros Hs. destruct s as [|x s] using rev_ind; [congruence|].
  now rewrite app_assoc, !last_snoc.
Qed.

Lemma first_violation_pad a id b c raw :
  forallb isspace a = true -> forallb isspace b = true ->
  forallb isspace c = true ->
  Spec.first_violation (a ++ id ++ b) (c ++ raw) = Spec.first_violation id raw.
Proof.
  intros Ha Hb Hc. unfold Spec.first_violation, Spec.order.
  cbn [find Spec.violates].
  rewrite (strip_pad a id b Ha Hb).
  replace (strip (c ++ raw)) with (strip raw)
    by (rewrite <- (strip_pad c raw [] Hc eq_refl), app_nil_r; reflexivity).
  destruct (is_empty (strip id)); [reflexivity|].
  destruct raw as [|x raw].
  - replace (strip []) with (@nil N) by reflexivity. reflexivity.
  - now rewrite (last_pad_left c (x :: raw)).
Qed.

(** X9. White space around the identifier and before the name does not
    matter: the padded request has the outcome and leaves the world of the
    request without the padding. *)
Theorem padding_is_ignored a id b c raw env w :
  forallb isspace a = true ->
  forallb isspace b = true ->
  forallb isspace c = true ->
  rename_image {| image_id := a ++ id ++ b; rename := c ++ raw |} env w
  = rename_image {| image_id := id; rename := raw |} env w.
Proof.
  intros Ha Hb Hc. unfold rename_image, rename_image_body, try_except.
  cbn [image_id rename]. rewrite !bind_run, !check_request_run.
  rewrite (first_violation_pad a id b c raw Ha Hb Hc).
  rewrite (strip_pad a id b Ha Hb).
  replace (strip (c ++ raw)) with (strip raw)
    by (rewrite <- (strip_pad c raw [] Hc eq_refl), app_nil_r; reflexivity).
  reflexivity.
Qed.

(** X10. A stale catalogue path can give a success without a rename: when
    no file is at the catalogue path and the target path is that same path
    (the new name is the current one), the placeholder is created, the
    rename of the path onto itself succeeds, and the answer is a success
    that leaves an empty file at the path. *)
Theorem stale_path_gives_empty_file request env w p :
  Spec.first_violation (image_id request) (rename request) = None ->
  db env (strip (image_id request)) = Some p ->
  p <> [] ->
  new_file_path p (strip (rename request)) = p ->
  fs w !! p = None ->
  fault env (OsOpen p) = None ->
  fault env (OsClose (Fd p)) = None ->
  fault env (OsRename p p) = None ->
  let '(r, w') := rename_image request env w in
  r = Return {| success := true;
                message := py "Successfully renamed image to '"
                           ++ strip (rename request)
                           ++ (posixpath.splitext p).2 ++ py "'" |}
  /\ fs w' = <[p := []]> (fs w).
Proof.
  intros Hv Hdb Hp Hsame Hfree Hopen Hclose Hren.
  assert (Hres : resolves_to request env p) by (repeat split; assumption).
  assert (Ht : target request p = p) by exact Hsame.
  by_cases request env w; try other_case; same_path p; rewrite ?Ht in *.
  - exfalso. unfold rename_error in *. cbn [fs called with_fs w_reserved] in *.
    rewrite Ht, lookup_insert_eq in *. congruence.
  - exfalso. unfold rename_error in *. cbn [fs called with_fs w_reserved] in *.
    rewrite Ht, lookup_insert_eq in *. congruence.
  - split; [reflexivity|].
    cbn [fs called with_fs w_reserved w_rename w_open w_lookup] in *.
    rewrite Ht in *.
    match goal with
    | H : <[p:=[]]> (fs w) !! p = Some ?c |- _ =>
        rewrite lookup_insert_eq in H; injection H as <-
    end.
    now rewrite insert_delete_eq, insert_insert_eq.
Qed.

(** ** The further properties at work on the scenario *)

Lemma no_file_is_lost_witness :
  exists r w',
    rename_image (Scenario.request "new_name") Scenario.env Scenario.disk = (r, w')
    /\ fs Scenario.disk !! Scenario.old_path = Some Scenario.content
    /\ fs w' !! py "/data/new_name.jpg" = Some Scenario.content.
Proof.
  destruct (rename_image (Scenario.request "new_name") Scenario.env Scenario.disk)
    as [r w'] eqn:Hrun.
  exists r, w'. split; [reflexivity|].
  assert (Hold : fs Scenario.disk !! Scenario.old_path = Some Scenario.content)
    by (vm_compute; reflexivity).
  split; [exact Hold|].
  destruct (no_file_is_lost _ _ _ _ _ _ _ Hrun Hold) as [Hstays|(_ & _ & Hmoved)].
  - exfalso. vm_compute in Hrun. injection Hrun as <- <-.
    vm_compute in Hstays. discriminate Hstays.
  - exact Hmoved.
Defined.

Lemma only_old_and_new_path_change_witness :
  exists p,
    db Scenario.env (strip (image_id (Scenario.request "new_name"))) = Some p
    /\ (Scenario.old_path = p
        \/ Scenario.old_path
           = new_file_path p (strip (rename (Scenario.request "new_name")))).
Proof.
  apply (only_old_and_new_path_change (Scenario.request "new_name")
           Scenario.env Scenario.disk
           (rename_image (Scenario.request "new_name") Scenario.env Scenario.disk).1
           (rename_image (Scenario.request "new_name") Scenario.env Scenario.disk).2).
  - vm_compute. reflexivity.
  - vm_compute. discriminate.
Defined.

Lemma log_is_written_on_internal_errors_only_witness :
  exists text,
    py "Unable to rename image: disk error" = py "Unable to rename image: " ++ text
    /\ last (log (rename_image (Scenario.request "new_name")
                    {| db := Scenario.catalogue Scenario.old_path;
                       fault := Scenario.rename_fails |} Scenario.disk).2)
       = Some (py "Error renaming image: " ++ text).
Proof.
  pose proof (log_is_written_on_internal_errors_only
                (Scenario.request "new_name")
                {| db := Scenario.catalogue Scenario.old_path;
                   fault := Scenario.rename_fails |} Scenario.disk
                (Raise (internal_error (py "disk error")))
                (rename_image (Scenario.request "new_name")
                   {| db := Scenario.catalogue Scenario.old_path;
                      fault := Scenario.rename_fails |} Scenario.disk).2) as H.
  apply H. vm_compute. reflexivity.
Defined.


Lemma renamed_file_stays_in_its_directory_witness :
  posixpath.dirname (new_file_path (py "/data/old_name.jpg") (py "holiday.2024"))
  = py "/data".
Proof.
  apply (renamed_file_stays_in_its_directory
           {| image_id := py "image_123"; rename := py " holiday.2024" |}
           (py "/data/old_name.jpg")).
  reflexivity.
Defined.

Lemma renamed_file_keeps_its_extension_witness :
  (posixpath.splitext
     (new_file_path (py "/data/old_name.jpg") (py "holiday.2024"))).2
  = py ".jpg".
Proof.
  apply (renamed_file_keeps_its_extension
           {| image_id := py "image_123"; rename := py " holiday.2024" |}
           (py "/data/old_name.jpg")).
  - reflexivity.
  - vm_compute. discriminate.
Defined.

Lemma padding_is_ignored_witness :
  rename_image {| image_id := py "  image_123 "; rename := py "  new_name" |}
    Scenario.env Scenario.disk
  = rename_image (Scenario.request "new_name") Scenario.env Scenario.disk.
Proof.
  apply (padding_is_ignored (py "  ") (py "image_123") (py " ") (py "  ")
           (py "new_name") Scenario.env Scenario.disk); reflexivity.
Defined.

Lemma stale_path_gives_empty_file_witness :
  let w := {| fs := ∅; log := []; calls := [] |} in
  let '(r, w') := rename_image (Scenario.request "old_name") Scenario.env w in
  (exists resp, r = Return resp)
  /\ fs w' !! Scenario.old_path = Some [].
Proof.
  intros w.
  pose proof (stale_path_gives_empty_file (Scenario.request "old_name")
                Scenario.env w Scenario.old_path
                eq_refl eq_refl) as H.
  destruct (rename_image _ _ _) as [r w'].
  destruct H as [-> ->]; try reflexivity.
  - vm_compute. discriminate.
  - split; [eauto|]. apply lookup_insert_eq.
Defined.

(** ** The listing and the favourite endpoints: properties *)

Section ApiFacts.
Context {D : Type} (c : Api.Collaborators D).

Lemma next_with_id_found image_id images img :
  Api.next_with_id image_id images = Api.Ok (Some img) ->
  exists before after v,
    images = before ++ img :: after
    /\ img !! py "id" = Some v /\ Api.eq_str v image_id = true
    /\ Forall (fun row => exists u, row !! py "id" = Some u
                                    /\ Api.eq_str u image_id = false) before.
Proof.
  induction images as [|row rest IH]; cbn [Api.next_with_id]; [discriminate|].
  unfold Api.getitem. destruct (row !! py "id") as [u|] eqn:Hid; [|discriminate].
  destruct (Api.eq_str u image_id) eqn:Heq.
  - intros H. injection H as <-. exists [], rest, u.
    repeat split; [assumption..|constructor].
  - intros H. destruct (IH H) as (before & after & v & -> & Hv & Hm & Hall).
    exists (row :: before), after, v. repeat split; [assumption..|].
    constructor; [eauto|assumption].
Qed.

Lemma next_with_id_none image_id images :
  Api.next_with_id image_id images = Api.Ok None <->
  Forall (fun row => exists u, row !! py "id" = Some u
                               /\ Api.eq_str u image_id = false) images.
Proof.
  induction images as [|row rest IH]; cbn [Api.next_with_id].
  - split; [constructor|reflexivity].
  - unfold Api.getitem. split.
    + destruct (row !! py "id") as [u|] eqn:Hid; [|discriminate].
      destruct (Api.eq_str u image_id) eqn:Heq; [discriminate|].
      intros H. constructor; [eauto|now apply IH].
    + intros H. inversion H as [|? ? (u & Hu & Hne) Hrest]; subst.
      rewrite Hu, Hne. now apply IH.
Qed.

Ltac run_api :=
  cbv beta iota zeta delta
    [Api.toggle_favourite Api.get_all_images Api.try_except Api.on_database
     Api.when Api.raise Api.of_result Api.logger_error mbind Api.H_bind
     mret Api.H_ret];
  cbn [Api.database Api.journal Api.image_id negb].

(** X11. [toggle_favourite] never answers 404, nor anything but 500, when
    it fails: the [HTTPException] with status 404 raised inside the [try]
    is caught by [except Exception] like every other exception, logged,
    and replaced by an [HTTPException] with status 500 whose detail holds
    the text of the cause. *)
Theorem toggle_favourite_fails_with_500_only req s e s' :
  Api.toggle_favourite c req s = (Api.Err e, s') ->
  exists cause,
    e = Api.HTTPException 500
          (Api.DetailStr (py "Internal server error: " ++ Api.exn_str c cause))
    /\ Api.journal s'
       = Api.journal s
         ++ [py "error in /toggle-favourite route: " ++ Api.exn_str c cause].
Proof.
  run_api.
  destruct (Api.db_toggle_image_favourite_status c (Api.image_id req)
              (Api.database s)) as [[success|cause] d1].
  2:{ intros H. injection H as <- <-. exists cause. split; reflexivity. }
  destruct success; cbn [negb]; run_api.
  2:{ intros H. injection H as <- <-.
      exists (Api.HTTPException 404
                (Api.DetailStr (py "Image not found or failed to toggle"))).
      split; reflexivity. }
  destruct (Api.db_get_all_images c None d1) as [[images|cause] d2].
  2:{ intros H. injection H as <- <-. exists cause. split; reflexivity. }
  destruct (Api.next_with_id (Api.image_id req) images) as [image|cause].
  2:{ intros H. injection H as <- <-. exists cause. split; reflexivity. }
  destruct (Api.get_isFavourite image) as [v|cause].
  - discriminate.
  - intros H. injection H as <- <-. exists cause. split; reflexivity.
Qed.

(** X12. When the database layer reports that it could not toggle, the
    answer is the status 500 built from the text of the 404 exception; the
    listing is not read, and the failure is logged. *)
Theorem failed_toggle_is_answered_with_500 req s d1 :
  Api.db_toggle_image_favourite_status c (Api.image_id req) (Api.database s)
  = (Api.Ok false, d1) ->
  let cause := Api.HTTPException 404
                 (Api.DetailStr (py "Image not found or failed to toggle")) in
  Api.toggle_favourite c req s
  = (Api.Err (Api.HTTPException 500
                (Api.DetailStr (py "Internal server error: "
                                ++ Api.exn_str c cause))),
     {| Api.database := d1;
        Api.journal := Api.journal s
                       ++ [py "error in /toggle-favourite route: "
                           ++ Api.exn_str c cause] |}).
Proof. intros Htoggle. run_api. rewrite Htoggle. reflexivity. Qed.

(** X13. A successful answer of [toggle_favourite] reports the first row of
    the listing whose [id] equals the identifier of the request as it was
    sent (it is not trimmed): [isFavourite] is the value of that row, or
    [False] when the row has no such column, every row before it has an
    [id] that differs, and nothing is logged. *)
Theorem toggle_favourite_reports_first_matching_row req s answer s' :
  Api.toggle_favourite c req s = (Api.Ok answer, s') ->
  exists d1 images before img after v,
    Api.db_toggle_image_favourite_status c (Api.image_id req) (Api.database s)
    = (Api.Ok true, d1)
    /\ Api.db_get_all_images c None d1 = (Api.Ok images, Api.database s')
    /\ images = before ++ img :: after
    /\ img !! py "id" = Some v /\ Api.eq_str v (Api.image_id req) = true
    /\ Forall (fun row => exists u, row !! py "id" = Some u
                           /\ Api.eq_str u (Api.image_id req) = false) before
    /\ answer !! py "success" = Some (Api.VBool true)
    /\ answer !! py "image_id" = Some (Api.VStr (Api.image_id req))
    /\ answer !! py "isFavourite"
       = Some (default (Api.VBool false) (img !! py "isFavourite"))
    /\ Api.journal s' = Api.journal s.
Proof.
  run_api.
  destruct (Api.db_toggle_image_favourite_status c (Api.image_id req)
              (Api.database s)) as [[success|cause] d1] eqn:Htoggle;
    [|discriminate].
  destruct success; cbn [negb]; run_api; [|discriminate].
  destruct (Api.db_get_all_images c None d1) as [[images|cause] d2] eqn:Hlist;
    [|discriminate].
  destruct (Api.next_with_id (Api.image_id req) images) as [image|cause] eqn:Hnext;
    [|discriminate].
  destruct image as [img|]; cbn [Api.get_isFavourite]; [|discriminate].
  intros H. injection H as <- <-. cbn [Api.database Api.journal].
  destruct (next_with_id_found _ _ _ Hnext)
    as (before & after & v & Himages & Hv & Hmatch & Hbefore).
  exists d1, images, before, img, after, v.
  repeat split; assumption.
Qed.

(** X14. The toggle is not undone when the answer fails afterwards: if the
    database toggles but no row of the listing has the identifier, the
    answer is status 500 (the [None] of [next] has no [get]), and the
    database is as the toggle and the listing left it. *)
Theorem toggled_but_not_listed req s d1 images d2 :
  Api.db_toggle_image_favourite_status c (Api.image_id req) (Api.database s)
  = (Api.Ok true, d1) ->
  Api.db_get_all_images c None d1 = (Api.Ok images, d2) ->
  Forall (fun row => exists u, row !! py "id" = Some u
                               /\ Api.eq_str u (Api.image_id req) = false)
    images ->
  let text := py "'NoneType' object has no attribute 'get'" in
  Api.toggle_favourite c req s
  = (Api.Err (Api.HTTPException 500
                (Api.DetailStr (py "Internal server error: " ++ text))),
     {| Api.database := d2;
        Api.journal := Api.journal s
                       ++ [py "error in /toggle-favourite route: " ++ text] |}).
Proof.
  intros Htoggle Hlist Hnone. apply next_with_id_none in Hnone.
  run_api. rewrite Htoggle. cbn [negb]. run_api. rewrite Hlist, Hnone.
  reflexivity.
Qed.

Lemma comprehension_ok images ds :
  Api.comprehension c images = Api.Ok ds ->
  Forall2 (fun image d => Api.image_data_of c image = Api.Ok d) images ds.
Proof.
  revert ds. induction images as [|image rest IH]; cbn [Api.comprehension];
    intros ds H.
  - injection H as <-. constructor.
  - destruct (Api.image_data_of c image) as [d|e] eqn:Hd; [|discriminate].
    destruct (Api.comprehension c rest) as [ds'|e]; [|discriminate].
    injection H as <-. constructor; [assumption|now apply IH].
Qed.

Lemma comprehension_err images cause :
  Api.comprehension c images = Api.Err cause ->
  exists before image after,
    images = before ++ image :: after
    /\ Forall (fun row => exists d, Api.image_data_of c row = Api.Ok d) before
    /\ Api.image_data_of c image = Api.Err cause.
Proof.
  induction images as [|image rest IH]; cbn [Api.comprehension]; [discriminate|].
  destruct (Api.image_data_of c image) as [d|e] eqn:Hd.
  - destruct (Api.comprehension c rest) as [ds|e]; [discriminate|].
    intros H. injection H as ->.
    destruct (IH eq_refl) as (before & img & after & -> & Hbefore & Himg).
    exists (image :: before), img, after. repeat split; [|assumption].
    constructor; [eauto|assumption].
  - intros H. injection H as ->. exists [], image, rest.
    repeat split; [constructor|assumption].
Qed.

Lemma comprehension_fails images row :
  row ∈ images ->
  (exists e, Api.image_data_of c row = Api.Err e) ->
  exists cause, Api.comprehension c images = Api.Err cause.
Proof.
  intros Hin [e He]. induction images as [|image rest IH].
  - now apply elem_of_nil in Hin.
  - cbn [Api.comprehension]. apply elem_of_cons in Hin as [<-|Hin].
    + rewrite He. eauto.
    + destruct (Api.image_data_of c image); [|eauto].
      destruct (IH Hin) as [cause ->]. eauto.
Qed.

(** X15. A successful listing holds one validated [ImageData] for each row
    of the database, in the order of the rows, and its message gives their
    number in decimal; the log is not written. *)
Theorem listing_has_one_entry_per_row tagged s resp s' :
  Api.get_all_images c tagged s = (Api.Ok resp, s') ->
  exists images,
    Api.db_get_all_images c tagged (Api.database s)
    = (Api.Ok images, Api.database s')
    /\ Forall2 (fun image d => Api.image_data_of c image = Api.Ok d)
         images (Api.data resp)
    /\ length (Api.data resp) = length images
    /\ Api.success resp = true
    /\ Api.message resp
       = py "Successfully retrieved " ++ Api.len_str (length images)
         ++ py " images"
    /\ Api.journal s' = Api.journal s.
Proof.
  run_api.
  destruct (Api.db_get_all_images c tagged (Api.database s))
    as [[images|cause] d1]; [|discriminate].
  destruct (Api.comprehension c images) as [ds|cause] eqn:Hds; [|discriminate].
  intros H. injection H as <- <-. apply comprehension_ok in Hds.
  exists images. cbn [Api.database Api.journal Api.data Api.success Api.message].
  pose proof (Forall2_length _ _ _ Hds) as Hlen.
  repeat split; [assumption|congruence|now rewrite <- Hlen].
Qed.

(** X16. A failing listing is all or nothing: the answer is status 500 with
    the error [Internal server error] and the text of the cause, which is
    the exception of the database layer or that of the first row that
    cannot be converted; the log is not written. *)
Theorem listing_fails_as_a_whole tagged s e s' :
  Api.get_all_images c tagged s = (Api.Err e, s') ->
  exists cause,
    e = Api.HTTPException 500
          (Api.DetailError
             {| err_success := false;
                error := py "Internal server error";
                err_message := py "Unable to retrieve images: "
                               ++ Api.exn_str c cause |})
    /\ Api.journal s' = Api.journal s
    /\ (Api.db_get_all_images c tagged (Api.database s)
        = (Api.Err cause, Api.database s')
        \/ exists before image after,
             Api.db_get_all_images c tagged (Api.database s)
             = (Api.Ok (before ++ image :: after), Api.database s')
             /\ Forall (fun row => exists d, Api.image_data_of c row = Api.Ok d)
                  before
             /\ Api.image_data_of c image = Api.Err cause).
Proof.
  run_api.
  destruct (Api.db_get_all_images c tagged (Api.database s))
    as [[images|cause] d1].
  - destruct (Api.comprehension c images) as [ds|cause] eqn:Hds; [discriminate|].
    intros H. injection H as <- <-. exists cause.
    split; [reflexivity|]. split; [reflexivity|]. right.
    destruct (comprehension_err _ _ Hds) as (before & image & after & -> & Hb & Hi).
    exists before, image, after. repeat split; assumption.
  - intros H. injection H as <- <-. exists cause.
    split; [reflexivity|]. split; [reflexivity|]. left. reflexivity.
Qed.

(** X17. Only [isFavourite] may be missing from a row: a row without it is
    converted like the same row with [isFavourite] set to [False]. *)
Theorem missing_isFavourite_is_False (row : gmap str Api.value) :
  row !! py "isFavourite" = None ->
  Api.image_data_of c row
  = Api.image_data_of c (<[py "isFavourite" := Api.VBool false]> row).
Proof.
  intros Hmissing. unfold Api.image_data_of, Api.getitem, Api.get.
  rewrite Hmissing, lookup_insert_eq.
  rewrite !lookup_insert_ne by (vm_compute; discriminate).
  reflexivity.
Qed.

(** X18. Every other column is required: a row of the listing without one
    of [id], [path], [folder_id], [thumbnailPath], [metadata], [isTagged],
    [tags] makes the whole listing fail with status 500. *)
Theorem row_without_a_column_fails_the_listing tagged s images d1 row key :
  Api.db_get_all_images c tagged (Api.database s) = (Api.Ok images, d1) ->
  row ∈ images ->
  key ∈ ["id"; "path"; "folder_id"; "thumbnailPath"; "metadata"; "isTagged";
         "tags"]%string ->
  row !! py key = None ->
  exists cause,
    Api.get_all_images c tagged s
    = (Api.Err (Api.HTTPException 500
                  (Api.DetailError
                     {| err_success := false;
                        error := py "Internal server error";
                        err_message := py "Unable to retrieve images: "
                                       ++ Api.exn_str c cause |})),
       {| Api.database := d1; Api.journal := Api.journal s |}).
Proof.
  intros Hdb Hin Hkey Hmissing.
  assert (Hrow : exists e, Api.image_data_of c row = Api.Err e).
  { unfold Api.image_data_of, Api.getitem.
    rewrite !elem_of_cons, elem_of_nil in Hkey.
    destruct Hkey as [->|[->|[->|[->|[->|[->|[->|[]]]]]]]];
      rewrite Hmissing;
      repeat match goal with
             | |- context [match row !! ?k with _ => _ end] =>
                 destruct (row !! k)
             | |- context [match Api.image_util_parse_metadata c ?v with _ => _ end] =>
                 destruct (Api.image_util_parse_metadata c v)
             end; eauto. }
  destruct (comprehension_fails images row Hin Hrow) as [cause Hcause].
  exists cause. run_api. rewrite Hdb, Hcause. reflexivity.
Qed.

End ApiFacts.

(** ** The properties of the two endpoints at work on the sample database *)

Lemma toggle_favourite_fails_with_500_only_witness :
  exists cause,
    (Api.toggle_favourite ApiScenario.collaborators
       (ApiScenario.toggle "no_such_image")
       (ApiScenario.site ApiScenario.rows)).1
    = Api.Err (Api.HTTPException 500
                 (Api.DetailStr (py "Internal server error: "
                                 ++ Api.exn_str ApiScenario.collaborators cause))).
Proof.
  set (run := Api.toggle_favourite ApiScenario.collaborators
                (ApiScenario.toggle "no_such_image")
                (ApiScenario.site ApiScenario.rows)).
  assert (Hanswer : run.1
                    = Api.Err (Api.HTTPException 500
                        (Api.DetailStr
                           (py "Internal server error: 404: Image not found or failed to toggle"))))
    by (vm_compute; reflexivity).
  assert (Hrun : run = (run.1, run.2)) by apply surjective_pairing.
  rewrite Hanswer in Hrun.
  destruct (toggle_favourite_fails_with_500_only _ _ _ _ _ Hrun)
    as (cause & Hcause & _).
  exists cause. now rewrite Hanswer, Hcause.
Defined.

Lemma failed_toggle_is_answered_with_500_witness :
  (Api.toggle_favourite ApiScenario.collaborators
     (ApiScenario.toggle "no_such_image") (ApiScenario.site ApiScenario.rows)).1
  = Api.Err (Api.HTTPException 500
               (Api.DetailStr
                  (py "Internal server error: 404: Image not found or failed to toggle"))).
Proof.
  assert (Hmissing : existsb (ApiScenario.has_id (py "no_such_image"))
                       ApiScenario.rows = false)
    by (vm_compute; reflexivity).
  rewrite (failed_toggle_is_answered_with_500 ApiScenario.collaborators
             (ApiScenario.toggle "no_such_image")
             (ApiScenario.site ApiScenario.rows)
             (map (ApiScenario.flip (py "no_such_image")) ApiScenario.rows)).
  - reflexivity.
  - cbn [Api.db_toggle_image_favourite_status ApiScenario.collaborators
           ApiScenario.toggle Api.image_id ApiScenario.site Api.database].
    now rewrite Hmissing.
Defined.

Lemma toggle_favourite_reports_first_matching_row_witness :
  exists answer s',
    Api.toggle_favourite ApiScenario.collaborators
      (ApiScenario.toggle "image_123") (ApiScenario.site ApiScenario.rows)
    = (Api.Ok answer, s')
    /\ answer !! py "success" = Some (Api.VBool true)
    /\ Api.journal s' = [].
Proof.
  set (run := Api.toggle_favourite ApiScenario.collaborators
                (ApiScenario.toggle "image_123")
                (ApiScenario.site ApiScenario.rows)).
  assert (Hok : exists answer, run.1 = Api.Ok answer)
    by (vm_compute; eexists; reflexivity).
  destruct Hok as [answer Hanswer].
  assert (Hrun : run = (run.1, run.2)) by apply surjective_pairing.
  rewrite Hanswer in Hrun.
  exists answer, run.2. split; [exact Hrun|].
  destruct (toggle_favourite_reports_first_matching_row _ _ _ _ _ Hrun)
    as (d1 & images & before & img & after & v
        & _ & _ & _ & _ & _ & _ & Hsuccess & _ & _ & Hjournal).
  split; assumption.
Defined.

Lemma toggled_but_not_listed_witness :
  (Api.toggle_favourite ApiScenario.forgetful (ApiScenario.toggle "image_123")
     (ApiScenario.site ApiScenario.rows)).1
  = Api.Err (Api.HTTPException 500
               (Api.DetailStr
                  (py "Internal server error: 'NoneType' object has no attribute 'get'"))).
Proof.
  rewrite (toggled_but_not_listed ApiScenario.forgetful
             (ApiScenario.toggle "image_123") (ApiScenario.site ApiScenario.rows)
             ApiScenario.rows [] ApiScenario.rows eq_refl eq_refl).
  - reflexivity.
  - constructor.
Defined.

Lemma listing_has_one_entry_per_row_witness :
  exists resp s',
    Api.get_all_images ApiScenario.collaborators None
      (ApiScenario.site ApiScenario.rows) = (Api.Ok resp, s')
    /\ length (Api.data resp) = 2%nat
    /\ Api.message resp = py "Successfully retrieved 2 images".
Proof.
  set (run := Api.get_all_images ApiScenario.collaborators None
                (ApiScenario.site ApiScenario.rows)).
  assert (Hok : exists resp, run.1 = Api.Ok resp)
    by (vm_compute; eexists; reflexivity).
  destruct Hok as [resp Hresp].
  assert (Hrun : run = (run.1, run.2)) by apply surjective_pairing.
  rewrite Hresp in Hrun.
  exists resp, run.2. split; [exact Hrun|].
  destruct (listing_has_one_entry_per_row _ _ _ _ _ Hrun)
    as (images & Hdb & _ & Hlen & _ & Hmsg & _).
  assert (images = ApiScenario.rows) as ->
    by (cbn [Api.db_get_all_images ApiScenario.collaborators Api.database
               ApiScenario.site] in Hdb; congruence).
  split; [exact Hlen|]. rewrite Hmsg. reflexivity.
Defined.

Lemma listing_fails_as_a_whole_witness :
  exists cause,
    (Api.get_all_images ApiScenario.locked None
       (ApiScenario.site ApiScenario.rows)).1
    = Api.Err (Api.HTTPException 500
                 (Api.DetailError
                    {| err_success := false;
                       error := py "Internal server error";
                       err_message := py "Unable to retrieve images: "
                                      ++ Api.exn_str ApiScenario.locked cause |})).
Proof.
  set (run := Api.get_all_images ApiScenario.locked None
                (ApiScenario.site ApiScenario.rows)).
  assert (Hfails : exists e, run.1 = Api.Err e)
    by (vm_compute; eexists; reflexivity).
  destruct Hfails as [e He].
  assert (Hrun : run = (run.1, run.2)) by apply surjective_pairing.
  rewrite He in Hrun.
  destruct (listing_fails_as_a_whole _ _ _ _ _ Hrun) as (cause & -> & _).
  exists cause. exact He.
Defined.

Lemma missing_isFavourite_is_False_witness :
  Api.image_data_of ApiScenario.collaborators (ApiScenario.row_of "image_123" None)
  = Api.image_data_of ApiScenario.collaborators
      (ApiScenario.row_of "image_123" (Some false)).
Proof.
  apply (missing_isFavourite_is_False ApiScenario.collaborators
           (ApiScenario.row_of "image_123" None)).
  vm_compute. reflexivity.
Defined.

Lemma row_without_a_column_fails_the_listing_witness :
  exists cause,
    Api.get_all_images ApiScenario.collaborators None
      (ApiScenario.site [ApiScenario.row_of "image_1" None;
                         delete (py "path") (ApiScenario.row_of "image_2" None)])
    = (Api.Err (Api.HTTPException 500
                  (Api.DetailError
                     {| err_success := false;
                        error := py "Internal server error";
                        err_message := py "Unable to retrieve images: "
                                       ++ Api.exn_str ApiScenario.collaborators cause |})),
       ApiScenario.site [ApiScenario.row_of "image_1" None;
                         delete (py "path") (ApiScenario.row_of "image_2" None)]).
Proof.
  apply (row_without_a_column_fails_the_listing ApiScenario.collaborators None
           (ApiScenario.site [ApiScenario.row_of "image_1" None;
                              delete (py "path") (ApiScenario.row_of "image_2" None)])
           [ApiScenario.row_of "image_1" None;
            delete (py "path") (ApiScenario.row_of "image_2" None)]
           [ApiScenario.row_of "image_1" None;
            delete (py "path") (ApiScenario.row_of "image_2" None)]
           (delete (py "path") (ApiScenario.row_of "image_2" None)) "path").
  - reflexivity.
  - apply elem_of_cons. right. apply elem_of_cons. left. reflexivity.
  - apply elem_of_cons. right. apply elem_of_cons. left. reflexivity.
  - apply lookup_delete_eq.
Defined.
